(** * Books API (server.js): a shallow embedding and its properties

    The program is an Express application with five routes over one
    JSON file, [books.json].  The embedding follows the source closely:

    - request bodies and file contents are JSON values ([json]); a
      JavaScript value that may be [undefined] is an [option json];
    - numbers are IEEE 754 doubles ([number]), held exactly as an
      integer, a fraction with a power of two below, or an infinity;
      arithmetic rounds to the nearest double ([nearest]);
    - text is a [string] of bytes (the file is read and written as UTF-8);
    - exceptions are an [outcome]; the asynchronous file operations are
      the nodes of an [io] tree, so that one definition of a handler can
      be run alone ([run]) or interleaved with others ([schedule]);
    - [JSON.parse] and [JSON.stringify] belong to the platform: handlers
      are parametric in a [JSONCodec]; [RefCodec] is a concrete codec
      after ECMA-262, used to evaluate handlers on concrete files;
    - [console.error] logging and [app.listen] are left out. *)

From Stdlib Require Import ZArith List String Ascii Bool Arith Lia.
From Stdlib Require Import DecimalString DecimalZ DecimalPos DecimalFacts.
Import ListNotations.

Local Open Scope string_scope.
Local Open Scope Z_scope.

(* ================================================================== *)
(** ** JavaScript values *)

(** A Number other than [NaN]: an integer [n], a fraction [n / 2^k]
    with [n] odd, or an infinity.  Every double has exactly one such
    form once [-0] is identified with [0], which [===], [>], [+],
    ToBoolean, ToString and [JSON.stringify] do not tell apart.  [NaN] is
    no JSON value and no operation of the program yields it from JSON
    values; the [NaN] of [parseInt] is an absent result. *)
Inductive number : Type :=
| Integer (n : Z)
| Fraction (n : Z) (k : positive)
| Infinity (negative : bool).

Definition numerator (x : number) : Z :=
  match x with
  | Integer n => n
  | Fraction n _ => n
  | Infinity _ => 0
  end.

Definition denominator (x : number) : Z :=
  match x with
  | Fraction _ k => 2 ^ Z.pos k
  | _ => 1
  end.

(** [n / 2^k] in lowest terms. *)
Fixpoint lowest (k : nat) (n : Z) : number :=
  match k with
  | O => Integer n
  | S k' =>
      if Z.even n then lowest k' (n / 2)
      else Fraction n (Pos.of_succ_nat k')
  end.

(** The double nearest to [a / b], for [b > 0]; a tie goes to the even
    significand (roundTiesToEven).  [e] is the binary exponent of
    [a / b]; the result is a multiple of [2^u] with a significand [q] of
    at most 53 bits, [u] being [-1074] for the subnormal numbers. *)
Definition nearest (a b : Z) : number :=
  if a =? 0 then Integer 0
  else
    let m := Z.abs a in
    let e0 := Z.log2 m - Z.log2 b in
    let e :=
      if b * 2 ^ Z.max e0 0 <=? m * 2 ^ Z.max (- e0) 0 then e0 else e0 - 1 in
    let u := Z.max (e - 52) (-1074) in
    let num := m * 2 ^ Z.max (- u) 0 in
    let den := b * 2 ^ Z.max u 0 in
    let q := num / den in
    let r := num mod den in
    let q :=
      if 2 * r <? den then q
      else if den <? 2 * r then q + 1
      else if Z.even q then q else q + 1 in
    if (0 <=? u) && (2 ^ 1024 <=? q * 2 ^ u) then Infinity (a <? 0)
    else
      let s := if a <? 0 then - q else q in
      if 0 <=? u then Integer (s * 2 ^ u) else lowest (Z.to_nat (- u)) s.

(** [x + 1] *)
Definition add1 (x : number) : number :=
  match x with
  | Infinity s => Infinity s
  | _ => nearest (numerator x + denominator x) (denominator x)
  end.

(** [x > y] *)
Definition gt (x y : number) : bool :=
  match x, y with
  | Infinity true, _ => false
  | _, Infinity false => false
  | Infinity false, _ => true
  | _, Infinity true => true
  | _, _ => numerator y * denominator x <? numerator x * denominator y
  end.

(** [x === y]: a double has one form. *)
Definition number_eqb (x y : number) : bool :=
  match x, y with
  | Integer n, Integer m => n =? m
  | Fraction n k, Fraction m j => (n =? m) && (k =? j)%positive
  | Infinity a, Infinity b => Bool.eqb a b
  | _, _ => false
  end.

#[local] Unset Elimination Schemes.

Inductive json : Type :=
| JNull
| JBool (b : bool)
| JNum (x : number)
| JStr (s : string)
| JArr (xs : list json)
| JObj (kvs : list (string * json)).

#[local] Set Elimination Schemes.

(** Own properties of an object, in the order of their enumeration:
    first binding of a key. *)
Fixpoint assoc (k : string) (kvs : list (string * json)) : option json :=
  match kvs with
  | [] => None
  | (k', v) :: rest => if String.eqb k k' then Some v else assoc k rest
  end.

(** [o[k] = v] on an object: an existing property keeps its place, a new
    one goes last. *)
Fixpoint assoc_set (k : string) (v : json) (kvs : list (string * json))
  : list (string * json) :=
  match kvs with
  | [] => [(k, v)]
  | (k', v') :: rest =>
      if String.eqb k k' then (k, v) :: rest
      else (k', v') :: assoc_set k v rest
  end.

Definition keys (kvs : list (string * json)) : list string := map fst kvs.

(** An array index: the decimal numeral, without a leading zero, of an
    integer below 2^32 - 1. *)
Definition array_index (k : string) : option N :=
  match NilEmpty.uint_of_string k with
  | Some u =>
      if Decimal.uint_beq (Decimal.unorm u) u
         && (N.of_uint u <? 4294967295)%N
      then Some (N.of_uint u)
      else None
  | None => None
  end.

(** The property [k] is created on an object, or given a new value.
    The properties of an object are enumerated with those whose key is
    an array index first, in ascending order, then the others in the
    order of their creation. *)
Fixpoint insert_index (i : N) (k : string) (v : json)
  (kvs : list (string * json)) : list (string * json) :=
  match kvs with
  | [] => [(k, v)]
  | (k', v') :: rest =>
      match array_index k' with
      | Some j =>
          if (i <? j)%N then (k, v) :: kvs
          else if (i =? j)%N then (k', v) :: rest
          else (k', v') :: insert_index i k v rest
      | None => (k, v) :: kvs
      end
  end.

Definition define_property (k : string) (v : json)
  (kvs : list (string * json)) : list (string * json) :=
  match array_index k with
  | Some i => insert_index i k v kvs
  | None => assoc_set k v kvs
  end.

(** No key is an array index. *)
Definition no_index (ks : list string) : bool :=
  forallb (fun k => match array_index k with
                    | Some _ => false
                    | None => true
                    end) ks.

(** Keys in the order of enumeration. *)
Fixpoint ordered (ks : list string) : bool :=
  match ks with
  | [] => true
  | k :: rest =>
      match array_index k with
      | None => no_index rest
      | Some i =>
          match rest with
          | k' :: _ =>
              match array_index k' with
              | Some j => (i <? j)%N
              | None => true
              end
          | [] => true
          end && ordered rest
      end
  end.

(** Exceptions; an [outcome] is a value or a thrown exception. *)
Inductive exn : Type :=
| FsError (code : string)   (* a system error of [fs], with its [code] *)
| SyntaxError               (* thrown by [JSON.parse] *)
| TypeError.                (* a property read on [null], or a value
                               that cannot be converted to a primitive *)

Definition err_code (e : exn) : option string :=
  match e with
  | FsError c => Some c
  | _ => None
  end.

(** [err.code === c] *)
Definition code_is (e : exn) (c : string) : bool :=
  match err_code e with
  | Some c' => String.eqb c' c
  | None => false
  end.

Inductive outcome (A : Type) : Type :=
| Val (a : A)
| Exn (e : exn).

Arguments Val {A} a.
Arguments Exn {A} e.

Definition outcome_map {A B : Type} (f : A -> B) (r : outcome A)
  : outcome B :=
  match r with
  | Val a => Val (f a)
  | Exn e => Exn e
  end.

(** ToBoolean. *)
Definition truthy (v : json) : bool :=
  match v with
  | JNull => false
  | JBool b => b
  | JNum (Integer 0) => false
  | JNum _ => true
  | JStr s => negb (String.eqb s "")
  | JArr _ => true
  | JObj _ => true
  end.

Definition truthy_u (v : option json) : bool :=
  match v with
  | None => false
  | Some v => truthy v
  end.

(** [v.k] for a receiver that is not [null]; [None] is [undefined].
    Only [id], [title], [author] and [available] are ever read, and none
    of them is a property of a primitive or of an array. *)
Definition prop (v : json) (k : string) : option json :=
  match v with
  | JObj kvs => assoc k kvs
  | _ => None
  end.

(** [v.k = x] for a receiver that is not [null] and a [k] that is not an
    array index ([title], [author], [available]): an existing property
    keeps its place, a new one goes last.  Primitives ignore the
    assignment (the module is not in strict mode), and a named property
    put on an array is invisible to [JSON.stringify]. *)
Definition set_prop (v : json) (k : string) (x : json) : json :=
  match v with
  | JObj kvs => JObj (assoc_set k x kvs)
  | _ => v
  end.

Fixpoint join (sep : string) (l : list string) : string :=
  match l with
  | [] => ""
  | [s] => s
  | s :: rest => s ++ sep ++ join sep rest
  end.

(** *** Number::toString *)

Definition pow10 (z : Z) : Z := 10 ^ Z.max z 0.

(** The double that the decimal [s * 10^p] denotes. *)
Definition decimal (s p : Z) : number :=
  nearest (s * pow10 p) (pow10 (- p)).

(** The decimal digits of [n >= 0]. *)
Definition digits_of (n : Z) : string :=
  NilEmpty.string_of_uint (N.to_uint (Z.to_N n)).

(** The least [j >= 1] with [a * 10^j >= b], for [0 < a < b]. *)
Fixpoint first_power (fuel : nat) (a b j : Z) : Z :=
  match fuel with
  | O => j
  | S fuel' =>
      if b <=? a * 10 ^ j then j else first_power fuel' a b (j + 1)
  end.

(** [n] with [10^(n-1) <= a / b < 10^n], for [a / b > 0]. *)
Definition magnitude (a b : Z) : Z :=
  if b <=? a then Z.of_nat (String.length (digits_of (a / b)))
  else 1 - first_power 400 a b 1.

(** The shortest decimal [s * 10^p] that denotes the double [x = a / b],
    [x > 0], trying [k], [k + 1], ... digits: of the [k]-digit decimals
    below and above [x] that denote [x], the one closer to [x], and the
    even one if they are as close. *)
Fixpoint shortest (fuel : nat) (k : Z) (x : number) (a b n : Z)
  : option (Z * Z) :=
  match fuel with
  | O => None
  | S fuel' =>
      let p := n - k in
      let A := a * pow10 (- p) in
      let B := b * pow10 p in
      let lo := A / B in
      let hi := lo + 1 in
      let ok_lo := number_eqb (decimal lo p) x in
      let ok_hi := number_eqb (decimal hi p) x in
      if ok_lo && ok_hi then
        if 2 * A <? (2 * lo + 1) * B then Some (lo, p)
        else if (2 * lo + 1) * B <? 2 * A then Some (hi, p)
        else Some (if Z.even lo then lo else hi, p)
      else if ok_lo then Some (lo, p)
      else if ok_hi then Some (hi, p)
      else shortest fuel' (k + 1) x a b n
  end.

Fixpoint strip_zeros (fuel : nat) (s p : Z) : Z * Z :=
  match fuel with
  | O => (s, p)
  | S fuel' =>
      if (s mod 10 =? 0) && negb (s =? 0) then strip_zeros fuel' (s / 10) (p + 1)
      else (s, p)
  end.

Fixpoint zeros (n : nat) : string :=
  match n with
  | O => ""
  | S n' => String "0" (zeros n')
  end.

(** The text for the digits [ds] of [s], [k] of them, and [n], where the
    number is [s * 10^(n - k)]. *)
Definition format_digits (ds : string) (n : Z) : string :=
  let k := Z.of_nat (String.length ds) in
  if (k <=? n) && (n <=? 21) then ds ++ zeros (Z.to_nat (n - k))
  else if (0 <? n) && (n <=? 21) then
    substring 0 (Z.to_nat n) ds ++ "."
      ++ substring (Z.to_nat n) (Z.to_nat (k - n)) ds
  else if (-6 <? n) && (n <=? 0) then "0." ++ zeros (Z.to_nat (- n)) ++ ds
  else
    let e := n - 1 in
    let es := (if e <? 0 then "-" else "+") ++ digits_of (Z.abs e) in
    match ds with
    | String c EmptyString => String c ("e" ++ es)
    | String c rest => String c ("." ++ rest ++ "e" ++ es)
    | EmptyString => ""
    end.

Definition absolute (x : number) : number :=
  match x with
  | Integer n => Integer (Z.abs n)
  | Fraction n k => Fraction (Z.abs n) k
  | Infinity _ => Infinity false
  end.

(** Seventeen digits denote every double. *)
Definition shortest_digits (x : number) : string :=
  let a := Z.abs (numerator x) in
  let b := denominator x in
  match shortest 17 1 (absolute x) a b (magnitude a b) with
  | None => "NaN"
  | Some (s, p) =>
      let (s, p) := strip_zeros 20 s p in
      let ds := digits_of s in
      (if numerator x <? 0 then "-" else "")
        ++ format_digits ds (p + Z.of_nat (String.length ds))
  end.

(** Number::toString, radix 10.  An integer below 2^53 in magnitude is
    its own shortest decimal. *)
Definition Number_toString (x : number) : string :=
  match x with
  | Infinity false => "Infinity"
  | Infinity true => "-Infinity"
  | Integer n =>
      if Z.abs n <? 2 ^ 53 then NilEmpty.string_of_int (Z.to_int n)
      else shortest_digits x
  | Fraction _ _ => shortest_digits x
  end.

(** [String(v)].  ToPrimitive on an object calls its [toString]: that of
    [Object.prototype], unless the object has a property of that name,
    which in a JSON value is not callable; [valueOf] then gives no
    primitive either, and a [TypeError] is thrown.  That of
    [Array.prototype] joins the elements, [null] counting as empty. *)
Fixpoint String_ (v : json) : outcome string :=
  match v with
  | JNull => Val "null"
  | JBool true => Val "true"
  | JBool false => Val "false"
  | JNum x => Val (Number_toString x)
  | JStr s => Val s
  | JArr xs =>
      outcome_map (join ",")
        ((fix elements (xs : list json) : outcome (list string) :=
         match xs with
         | [] => Val []
         | x :: rest =>
             match (match x with
                    | JNull => Val ""
                    | _ => String_ x
                    end) with
             | Exn e => Exn e
             | Val s =>
                 match elements rest with
                 | Exn e => Exn e
                 | Val l => Val (s :: l)
                 end
             end
         end) xs)
  | JObj kvs =>
      match assoc "toString" kvs with
      | Some _ => Exn TypeError
      | None => Val "[object Object]"
      end
  end.

Definition String_u (v : option json) : outcome string :=
  match v with
  | None => Val "undefined"
  | Some v => String_ v
  end.

(** [Object.keys(v)]. *)
Definition index_keys (n : nat) : list string :=
  map (fun i => NilEmpty.string_of_uint (Nat.to_uint i)) (seq 0 n).

Definition Object_keys (v : json) : list string :=
  match v with
  | JObj kvs => keys kvs
  | JArr xs => index_keys (List.length xs)
  | JStr s => index_keys (String.length s)
  | _ => []
  end.

Definition includes (l : list string) (k : string) : bool :=
  existsb (String.eqb k) l.

(** [Array.prototype.findIndex]; [None] is [-1]. *)
Fixpoint findIndex {A : Type} (p : A -> bool) (l : list A) : option nat :=
  match l with
  | [] => None
  | x :: rest =>
      if p x then Some O
      else match findIndex p rest with
           | Some i => Some (S i)
           | None => None
           end
  end.

(** [l[i] = v] for an index inside the array. *)
Fixpoint set_nth {A : Type} (i : nat) (v : A) (l : list A) : list A :=
  match l, i with
  | [], _ => []
  | _ :: rest, O => v :: rest
  | x :: rest, S i' => x :: set_nth i' v rest
  end.

(** [l.splice(i, 1)]. *)
Fixpoint splice1 {A : Type} (i : nat) (l : list A) : list A :=
  match l, i with
  | [], _ => []
  | _ :: rest, O => rest
  | x :: rest, S i' => x :: splice1 i' rest
  end.

(* ================================================================== *)
(** ** [Number.parseInt(s, 10)] *)

Definition byte (a : ascii) : N := N_of_ascii a.

(** TAB, LF, VT, FF, CR, SP. *)
Definition ascii_space (c : N) : bool :=
  ((9 <=? c) && (c <=? 13) || (c =? 32))%N.

(** UTF-8 forms of the other white space and line terminators:
    U+00A0; U+1680, U+2000..U+200A, U+2028, U+2029, U+202F, U+205F,
    U+3000, U+FEFF. *)
Definition space2 (c1 c2 : N) : bool := ((c1 =? 194) && (c2 =? 160))%N.

Definition space3 (c1 c2 c3 : N) : bool :=
  ((c1 =? 225) && (c2 =? 154) && (c3 =? 128)
   || (c1 =? 226) && (c2 =? 128)
      && ((128 <=? c3) && (c3 <=? 138) || (c3 =? 168) || (c3 =? 169)
          || (c3 =? 175))
   || (c1 =? 226) && (c2 =? 129) && (c3 =? 159)
   || (c1 =? 227) && (c2 =? 128) && (c3 =? 128)
   || (c1 =? 239) && (c2 =? 187) && (c3 =? 191))%N.

Fixpoint trimStart (s : string) : string :=
  match s with
  | EmptyString => s
  | String a r1 =>
      if ascii_space (byte a) then trimStart r1
      else match r1 with
           | EmptyString => s
           | String b r2 =>
               if space2 (byte a) (byte b) then trimStart r2
               else match r2 with
                    | EmptyString => s
                    | String c r3 =>
                        if space3 (byte a) (byte b) (byte c)
                        then trimStart r3
                        else s
                    end
           end
  end.

Definition digit_of (a : ascii) : option Z :=
  let c := byte a in
  if ((48 <=? c) && (c <=? 57))%N then Some (Z.of_N (c - 48)) else None.

(** The longest prefix of decimal digits, as a number, and what is left. *)
Fixpoint digits (s : string) (acc : Z) : Z * string :=
  match s with
  | EmptyString => (acc, s)
  | String a rest =>
      match digit_of a with
      | Some d => digits rest (10 * acc + d)
      | None => (acc, s)
      end
  end.

Definition starts_with_digit (s : string) : bool :=
  match s with
  | String a _ => match digit_of a with Some _ => true | None => false end
  | EmptyString => false
  end.

(** [None] is [NaN].  The digits denote an integer, which is rounded to
    a double. *)
Definition parseInt10 (inputString : string) : option number :=
  let s := trimStart inputString in
  let (sign, s) :=
    match s with
    | String a rest =>
        if (byte a =? 45)%N then (-1, rest)
        else if (byte a =? 43)%N then (1, rest)
        else (1, s)
    | EmptyString => (1, s)
    end in
  if starts_with_digit s then Some (nearest (sign * fst (digits s 0)) 1)
  else None.

(** [parseId]: [null] is [None]. *)
Definition parseId (idStr : string) : option number :=
  match parseInt10 idStr with
  | None => None
  | Some id => Some id
  end.

(* ================================================================== *)
(** ** Exceptions and asynchronous file operations *)

(** A computation that awaits [fs.readFile(DATA_FILE, 'utf8')] and
    [fs.writeFile(DATA_FILE, data, 'utf8')]; each node is one await, and
    the continuation receives what the promise settles to. *)
Inductive io (A : Type) : Type :=
| Ret (a : A)
| Throw (e : exn)
| ReadFile (k : outcome string -> io A)
| WriteFile (data : string) (k : outcome unit -> io A).

Arguments Ret {A} a.
Arguments Throw {A} e.
Arguments ReadFile {A} k.
Arguments WriteFile {A} data k.

Fixpoint bind {A B : Type} (m : io A) (f : A -> io B) : io B :=
  match m with
  | Ret a => f a
  | Throw e => Throw e
  | ReadFile k => ReadFile (fun r => bind (k r) f)
  | WriteFile data k => WriteFile data (fun r => bind (k r) f)
  end.

(** [try { m } catch (err) { h err }]. *)
Fixpoint try_catch {A : Type} (m : io A) (h : exn -> io A) : io A :=
  match m with
  | Ret a => Ret a
  | Throw e => h e
  | ReadFile k => ReadFile (fun r => try_catch (k r) h)
  | WriteFile data k => WriteFile data (fun r => try_catch (k r) h)
  end.

Definition lift {A : Type} (r : outcome A) : io A :=
  match r with
  | Val a => Ret a
  | Exn e => Throw e
  end.

Definition readFile : io string := ReadFile lift.

Definition writeFile (data : string) : io unit := WriteFile data lift.

Notation "x <- m ;; k" := (bind m (fun x => k))
  (at level 61, m at next level, right associativity).

(* ================================================================== *)
(** ** The file *)

(** [books.json]: absent or holding text.  The two flags let the file
    system refuse an operation; a refused write leaves the file as it
    was. *)
Record disk : Type := mkDisk {
  content : option string;
  read_fails : bool;
  write_fails : bool
}.

Definition fs_read (d : disk) : outcome string :=
  if read_fails d then Exn (FsError "EIO")
  else match content d with
       | None => Exn (FsError "ENOENT")
       | Some data => Val data
       end.

Definition fs_write (data : string) (d : disk) : outcome unit * disk :=
  if write_fails d then (Exn (FsError "EIO"), d)
  else (Val tt, mkDisk (Some data) (read_fails d) (write_fails d)).

(** One request served alone, from start to response. *)
Fixpoint run {A : Type} (m : io A) (d : disk) : outcome A * disk :=
  match m with
  | Ret a => (Val a, d)
  | Throw e => (Exn e, d)
  | ReadFile k => run (k (fs_read d)) d
  | WriteFile data k => let (r, d') := fs_write data d in run (k r) d'
  end.

(** Requests in flight share the file.  A step lets one of them perform
    the file operation it awaits and run on to its next await. *)
Definition advance {A : Type} (m : io A) (d : disk) : io A * disk :=
  match m with
  | ReadFile k => (k (fs_read d), d)
  | WriteFile data k => let (r, d') := fs_write data d in (k r, d')
  | _ => (m, d)
  end.

Definition step_at {A : Type} (i : nat) (pool : list (io A)) (d : disk)
  : list (io A) * disk :=
  match nth_error pool i with
  | None => (pool, d)
  | Some m => let (m', d') := advance m d in (set_nth i m' pool, d')
  end.

Fixpoint schedule {A : Type} (order : list nat) (pool : list (io A))
  (d : disk) : list (io A) * disk :=
  match order with
  | [] => (pool, d)
  | i :: rest => let (pool', d') := step_at i pool d in schedule rest pool' d'
  end.

Definition settled {A : Type} (m : io A) : bool :=
  match m with
  | Ret _ | Throw _ => true
  | _ => false
  end.

(** Each request runs to its response before the next one starts; a
    request needs at most [n] file operations. *)
Definition serial (n : nat) (requests : nat) : list nat :=
  flat_map (fun i => repeat i n) (seq 0 requests).

(* ================================================================== *)
(** ** The platform's JSON codec *)

(** [JSON_parse] is [JSON.parse], [None] standing for a thrown
    [SyntaxError]; [JSON_stringify v] is [JSON.stringify(v, null, 2)]. *)
Class JSONCodec : Type := {
  JSON_parse : string -> option json;
  JSON_stringify : json -> string
}.

(** Objects as the platform builds them: no key occurs twice, and the
    keys are in the order of enumeration. *)
Fixpoint wf (v : json) : Prop :=
  match v with
  | JArr xs => fold_right (fun x acc => wf x /\ acc) True xs
  | JObj kvs =>
      (NoDup (keys kvs) /\ ordered (keys kvs) = true)
      /\ fold_right (fun kv acc => wf (snd kv) /\ acc) True kvs
  | _ => True
  end.

(** An integer that a double holds exactly, as it does the integers
    next to it: one below 2^53 in magnitude. *)
Definition safe (x : number) : Prop :=
  match x with
  | Integer n => Z.abs n < 2 ^ 53
  | _ => False
  end.

(** Values in which every number is such an integer. *)
Fixpoint safe_numbers (v : json) : Prop :=
  match v with
  | JNum x => safe x
  | JArr xs => fold_right (fun x acc => safe_numbers x /\ acc) True xs
  | JObj kvs => fold_right (fun kv acc => safe_numbers (snd kv) /\ acc) True kvs
  | _ => True
  end.

Definition plain (v : json) : Prop := wf v /\ safe_numbers v.

(** What some statements ask of a codec: the text that [JSON_stringify]
    writes for a plain value parses back to the value. *)
Definition round_trips (C : JSONCodec) : Prop :=
  forall v, plain v -> JSON_parse (JSON_stringify v) = Some v.

(* ================================================================== *)
(** ** server.js *)

Inductive response : Type :=
| Json (status : nat) (body : json)     (* res.status(s).json(body) *)
| Send (status : nat)                   (* res.status(s).send() *)
| Redirect (target : string).           (* res.redirect(target) *)

Definition error_body (msg : string) : json := JObj [("error", JStr msg)].

(** [b.id] in the callback of [reduce], which does not test [b] first. *)
Definition get (v : json) (k : string) : outcome (option json) :=
  match v with
  | JNull => Exn TypeError
  | _ => Val (prop v k)
  end.

(** [(max, b) => (typeof b.id === 'number' && b.id > max ? b.id : max)] *)
Definition max_step (max : number) (b : json) : outcome number :=
  match get b "id" with
  | Exn e => Exn e
  | Val (Some (JNum id)) => Val (if gt id max then id else max)
  | Val _ => Val max
  end.

(** [Array.prototype.reduce] with an initial value. *)
Fixpoint reduce {A B : Type} (f : A -> B -> outcome A) (l : list B)
  (init : A) : outcome A :=
  match l with
  | [] => Val init
  | x :: rest =>
      match f init x with
      | Exn e => Exn e
      | Val acc => reduce f rest acc
      end
  end.

(** [b => b && b.available === true] *)
Definition is_available (b : json) : bool :=
  truthy b && match prop b "available" with
              | Some (JBool true) => true
              | _ => false
              end.

(** [b => b && b.id === id] *)
Definition has_id (id : number) (b : json) : bool :=
  truthy b && match prop b "id" with
              | Some (JNum x) => number_eqb x id
              | _ => false
              end.

(** [req.body || {}] *)
Definition or_empty (body : option json) : json :=
  match body with
  | Some v => if truthy v then v else JObj []
  | None => JObj []
  end.

Definition allowed : list string := ["title"; "author"; "available"].

Section Server.

Context {codec : JSONCodec}.

Definition readBooks : io (list json) :=
  try_catch
    (data <- readFile ;;
     match JSON_parse data with
     | None => Throw SyntaxError
     | Some parsed =>
         Ret (match parsed with
              | JArr books => books
              | _ => []
              end)
     end)
    (fun err =>
       if code_is err "ENOENT" then Ret [] else Throw err).

Definition writeBooks (books : list json) : io unit :=
  try_catch (writeFile (JSON_stringify (JArr books)))
            (fun err => Throw err).

(** [GET /] *)
Definition get_root : io response := Ret (Redirect "/books").

(** [GET /books] *)
Definition get_books : io response :=
  try_catch
    (books <- readBooks ;;
     Ret (Json 200 (JArr books)))
    (fun _ => Ret (Json 500 (error_body "Failed to read books."))).

(** [GET /books/available] *)
Definition get_books_available : io response :=
  try_catch
    (books <- readBooks ;;
     Ret (Json 200 (JArr (filter is_available books))))
    (fun _ => Ret (Json 500 (error_body "Failed to read books."))).

(** The record built by [POST /books]. *)
Definition newBook (maxId : number) (title author : string)
  (available : option json) : json :=
  JObj [("id", JNum (add1 maxId));
        ("title", JStr title);
        ("author", JStr author);
        ("available", JBool match available with
                            | Some (JBool b) => b
                            | _ => false
                            end)].

(** [POST /books] *)
Definition post_books (body : option json) : io response :=
  try_catch
    (let b := or_empty body in
     let title := prop b "title" in
     let author := prop b "author" in
     let available := prop b "available" in
     if negb (truthy_u title) || negb (truthy_u author) then
       Ret (Json 400 (error_body "title and author are required"))
     else
       books <- readBooks ;;
       maxId <- lift (reduce max_step books (Integer 0)) ;;
       title <- lift (String_u title) ;;
       author <- lift (String_u author) ;;
       let book := newBook maxId title author available in
       _ <- writeBooks (books ++ [book]) ;;
       Ret (Json 201 book))
    (fun _ => Ret (Json 500 (error_body "Failed to add book."))).

(** [if (typeof v !== 'undefined') book.k = String(v)] *)
Definition assign_text (book : json) (k : string) (v : option json)
  : outcome json :=
  match v with
  | None => Val book
  | Some t => outcome_map (fun s => set_prop book k (JStr s)) (String_ t)
  end.

(** Lines 112-114: the three conditional assignments. *)
Definition apply_updates (book updates : json) : outcome json :=
  match assign_text book "title" (prop updates "title") with
  | Exn e => Exn e
  | Val book =>
      match assign_text book "author" (prop updates "author") with
      | Exn e => Exn e
      | Val book =>
          Val match prop updates "available" with
              | Some a => set_prop book "available" (JBool (truthy a))
              | None => book
              end
      end
  end.

(** [PUT /books/:id] *)
Definition put_books_id (idStr : string) (body : option json)
  : io response :=
  try_catch
    (match parseId idStr with
     | None => Ret (Json 400 (error_body "Invalid id"))
     | Some id =>
         let updates := or_empty body in
         let hasAllowed := existsb (includes allowed) (Object_keys updates) in
         if negb hasAllowed then
           Ret (Json 400 (error_body
             "At least one of title, author, available must be provided"))
         else
           books <- readBooks ;;
           match findIndex (has_id id) books with
           | None => Ret (Json 404 (error_body "Book not found"))
           | Some idx =>
               match nth_error books idx with
               | None => Throw TypeError
               | Some book =>
                   book <- lift (apply_updates book updates) ;;
                   _ <- writeBooks (set_nth idx book books) ;;
                   Ret (Json 200 book)
               end
           end
     end)
    (fun _ => Ret (Json 500 (error_body "Failed to update book."))).

(** [DELETE /books/:id] *)
Definition delete_books_id (idStr : string) : io response :=
  try_catch
    (match parseId idStr with
     | None => Ret (Json 400 (error_body "Invalid id"))
     | Some id =>
         books <- readBooks ;;
         match findIndex (has_id id) books with
         | None => Ret (Json 404 (error_body "Book not found"))
         | Some idx =>
             _ <- writeBooks (splice1 idx books) ;;
             Ret (Send 204)
         end
     end)
    (fun _ => Ret (Json 500 (error_body "Failed to delete book."))).

End Server.

(* ================================================================== *)
(** ** A reference codec

    JSON text after ECMA-262: [JSON.stringify] with a gap of two spaces,
    and [JSON.parse].  A number literal denotes the nearest double, and
    an infinite number is written [null].  Text is kept in its UTF-8
    form: an escaped surrogate pair is one code point of four bytes, and
    an escaped surrogate without its pair, which has no UTF-8 form, is
    outside the model and refused. *)

Module Ref.

Definition dquote : ascii := ascii_of_nat 34.
Definition newline : ascii := ascii_of_nat 10.

Definition hex_char (n : N) : ascii :=
  ascii_of_N (if (n <? 10)%N then 48 + n else 87 + n).

(** QuoteJSONString, one code unit. *)
Definition escape (a : ascii) : string :=
  let c := byte a in
  if (c =? 34)%N then String "\" (String dquote "")
  else if (c =? 92)%N then "\\"
  else if (c =? 8)%N then "\b"
  else if (c =? 9)%N then "\t"
  else if (c =? 10)%N then "\n"
  else if (c =? 12)%N then "\f"
  else if (c =? 13)%N then "\r"
  else if (c <? 32)%N then
    "\u00" ++ String (hex_char (c / 16)) (String (hex_char (c mod 16)) "")
  else String a "".

Fixpoint escape_all (s : string) : string :=
  match s with
  | EmptyString => ""
  | String a rest => escape a ++ escape_all rest
  end.

Definition quote (s : string) : string :=
  String dquote (escape_all s ++ String dquote "").

(** SerializeJSONProperty at indentation [indent]. *)
Fixpoint stringify_at (indent : string) (v : json) : string :=
  match v with
  | JNull => "null"
  | JBool true => "true"
  | JBool false => "false"
  | JNum (Infinity _) => "null"
  | JNum x => Number_toString x
  | JStr s => quote s
  | JArr [] => "[]"
  | JArr xs =>
      let inner := indent ++ "  " in
      "[" ++ String newline inner
        ++ join ("," ++ String newline inner) (map (stringify_at inner) xs)
        ++ String newline indent ++ "]"
  | JObj [] => "{}"
  | JObj kvs =>
      let inner := indent ++ "  " in
      "{" ++ String newline inner
        ++ join ("," ++ String newline inner)
             (map (fun kv => quote (fst kv) ++ ": "
                             ++ stringify_at inner (snd kv)) kvs)
        ++ String newline indent ++ "}"
  end.

Definition stringify (v : json) : string := stringify_at "" v.

(** JSON white space: TAB, LF, CR, SP. *)
Definition is_ws (a : ascii) : bool :=
  let c := byte a in ((c =? 9) || (c =? 10) || (c =? 13) || (c =? 32))%N.

Fixpoint skip_ws (s : string) : string :=
  match s with
  | EmptyString => s
  | String a rest => if is_ws a then skip_ws rest else s
  end.

Fixpoint strip_prefix (p s : string) : option string :=
  match p with
  | EmptyString => Some s
  | String a p' =>
      match s with
      | EmptyString => None
      | String b s' => if Ascii.eqb a b then strip_prefix p' s' else None
      end
  end.

Definition hex_value (a : ascii) : option N :=
  let c := byte a in
  if ((48 <=? c) && (c <=? 57))%N then Some (c - 48)%N
  else if ((97 <=? c) && (c <=? 102))%N then Some (c - 87)%N
  else if ((65 <=? c) && (c <=? 70))%N then Some (c - 55)%N
  else None.

Definition hex4 (a b c d : ascii) : option N :=
  match hex_value a, hex_value b, hex_value c, hex_value d with
  | Some x, Some y, Some z, Some w => Some (((x * 16 + y) * 16 + z) * 16 + w)%N
  | _, _, _, _ => None
  end.

(** UTF-8 of a code point that is not a surrogate. *)
Definition utf8 (cp : N) : option string :=
  if (cp <? 128)%N then Some (String (ascii_of_N cp) "")
  else if (cp <? 2048)%N then
    Some (String (ascii_of_N (192 + cp / 64))
            (String (ascii_of_N (128 + cp mod 64)) ""))
  else if ((55296 <=? cp) && (cp <=? 57343))%N then None
  else if (cp <? 65536)%N then
    Some (String (ascii_of_N (224 + cp / 4096))
            (String (ascii_of_N (128 + (cp / 64) mod 64))
               (String (ascii_of_N (128 + cp mod 64)) "")))
  else
    Some (String (ascii_of_N (240 + cp / 262144))
            (String (ascii_of_N (128 + (cp / 4096) mod 64))
               (String (ascii_of_N (128 + (cp / 64) mod 64))
                  (String (ascii_of_N (128 + cp mod 64)) "")))).

(** The code point of a surrogate pair. *)
Definition pair_code (hi lo : N) : N :=
  (65536 + (hi - 55296) * 1024 + (lo - 56320))%N.

Definition prepend (p : string) (r : option (string * string))
  : option (string * string) :=
  match r with
  | Some (s, rest) => Some (p ++ s, rest)
  | None => None
  end.

(** The characters of a string literal after its opening quote. *)
Fixpoint parse_chars (s : string) : option (string * string) :=
  match s with
  | EmptyString => None
  | String a r =>
      let c := byte a in
      if (c =? 34)%N then Some ("", r)
      else if (c =? 92)%N then
        match r with
        | EmptyString => None
        | String e r1 =>
            let x := byte e in
            if (x =? 34)%N then prepend (String dquote "") (parse_chars r1)
            else if (x =? 92)%N then prepend "\" (parse_chars r1)
            else if (x =? 47)%N then prepend "/" (parse_chars r1)
            else if (x =? 98)%N then
              prepend (String (ascii_of_nat 8) "") (parse_chars r1)
            else if (x =? 102)%N then
              prepend (String (ascii_of_nat 12) "") (parse_chars r1)
            else if (x =? 110)%N then
              prepend (String (ascii_of_nat 10) "") (parse_chars r1)
            else if (x =? 114)%N then
              prepend (String (ascii_of_nat 13) "") (parse_chars r1)
            else if (x =? 116)%N then
              prepend (String (ascii_of_nat 9) "") (parse_chars r1)
            else if (x =? 117)%N then
              match r1 with
              | String h1 (String h2 (String h3 (String h4 r2))) =>
                  match hex4 h1 h2 h3 h4 with
                  | Some cp =>
                      if ((55296 <=? cp) && (cp <=? 56319))%N then
                        match r2 with
                        | String b1 (String b2 (String l1 (String l2
                            (String l3 (String l4 r3))))) =>
                            match hex4 l1 l2 l3 l4 with
                            | Some lo =>
                                if ((byte b1 =? 92) && (byte b2 =? 117)
                                    && (56320 <=? lo) && (lo <=? 57343))%N
                                then
                                  match utf8 (pair_code cp lo) with
                                  | Some bytes =>
                                      prepend bytes (parse_chars r3)
                                  | None => None
                                  end
                                else None
                            | None => None
                            end
                        | _ => None
                        end
                      else
                        match utf8 cp with
                        | Some bytes => prepend bytes (parse_chars r2)
                        | None => None
                        end
                  | None => None
                  end
              | _ => None
              end
            else None
        end
      else if (c <? 32)%N then None
      else prepend (String a "") (parse_chars r)
  end.

Definition is_digit (a : ascii) : bool :=
  let c := byte a in ((48 <=? c) && (c <=? 57))%N.

Fixpoint span_digits (s : string) : string * string :=
  match s with
  | EmptyString => ("", s)
  | String a rest =>
      if is_digit a then
        let (ds, rest') := span_digits rest in (String a ds, rest')
      else ("", s)
  end.

(** A fraction or an exponent follows. *)
Definition more_number (s : string) : bool :=
  match s with
  | String a _ =>
      let c := byte a in ((c =? 46) || (c =? 101) || (c =? 69))%N
  | EmptyString => false
  end.

Definition split_sign (s : string) : bool * string :=
  match s with
  | String a rest => if (byte a =? 45)%N then (true, rest) else (false, s)
  | EmptyString => (false, s)
  end.

(** A point and digits, or nothing. *)
Definition fraction (s : string) : option (string * string) :=
  match s with
  | String a rest =>
      if (byte a =? 46)%N then
        match span_digits rest with
        | (EmptyString, _) => None
        | (fs, rest') => Some (fs, rest')
        end
      else Some ("", s)
  | EmptyString => Some ("", s)
  end.

(** [e] or [E], an optional sign and digits, or nothing. *)
Definition exponent (s : string) : option (Z * string) :=
  match s with
  | String a rest =>
      if ((byte a =? 101) || (byte a =? 69))%N then
        let (sign, rest1) :=
          match rest with
          | String b r =>
              if (byte b =? 45)%N then (-1, r)
              else if (byte b =? 43)%N then (1, r)
              else (1, rest)
          | EmptyString => (1, rest)
          end in
        match span_digits rest1 with
        | (EmptyString, _) => None
        | (es, rest2) => Some (sign * fst (digits es 0), rest2)
        end
      else Some (0, s)
  | EmptyString => Some (0, s)
  end.

(** An optional minus sign; zero or digits without a leading zero; an
    optional fraction; an optional exponent.  The literal denotes
    [m * 10^(e - length of the fraction)], [m] being the integer that the
    digits before and after the point spell. *)
Definition parse_number (s : string) : option (number * string) :=
  let (negative, s1) := split_sign s in
  let (ds, r1) := span_digits s1 in
  match NilEmpty.uint_of_string ds with
  | None => None
  | Some u =>
      if Decimal.uint_beq (Decimal.unorm u) u then
        match fraction r1 with
        | None => None
        | Some (fs, r2) =>
            match exponent r2 with
            | None => None
            | Some (e, r3) =>
                let m := fst (digits (ds ++ fs) 0) in
                Some (decimal (if negative then - m else m)
                        (e - Z.of_nat (String.length fs)), r3)
            end
        end
      else None
  end.

Fixpoint parse_value (fuel : nat) (s : string) {struct fuel}
  : option (json * string) :=
  match fuel with
  | O => None
  | S fuel' =>
      match skip_ws s with
      | EmptyString => None
      | String a r as s' =>
          let c := byte a in
          if (c =? 110)%N then
            option_map (pair JNull) (strip_prefix "ull" r)
          else if (c =? 116)%N then
            option_map (pair (JBool true)) (strip_prefix "rue" r)
          else if (c =? 102)%N then
            option_map (pair (JBool false)) (strip_prefix "alse" r)
          else if (c =? 34)%N then
            match parse_chars r with
            | Some (str, rest) => Some (JStr str, rest)
            | None => None
            end
          else if (c =? 91)%N then
            match skip_ws r with
            | EmptyString => None
            | String b r' =>
                if (byte b =? 93)%N then Some (JArr [], r')
                else parse_elements fuel' r []
            end
          else if (c =? 123)%N then
            match skip_ws r with
            | EmptyString => None
            | String b r' =>
                if (byte b =? 125)%N then Some (JObj [], r')
                else parse_members fuel' r []
            end
          else
            match parse_number s' with
            | Some (n, rest) => Some (JNum n, rest)
            | None => None
            end
      end
  end

with parse_elements (fuel : nat) (s : string) (acc : list json)
  {struct fuel} : option (json * string) :=
  match fuel with
  | O => None
  | S fuel' =>
      match parse_value fuel' s with
      | None => None
      | Some (v, rest) =>
          match skip_ws rest with
          | EmptyString => None
          | String b r =>
              if (byte b =? 44)%N then parse_elements fuel' r (acc ++ [v])
              else if (byte b =? 93)%N then Some (JArr (acc ++ [v]), r)
              else None
          end
      end
  end

with parse_members (fuel : nat) (s : string) (acc : list (string * json))
  {struct fuel} : option (json * string) :=
  match fuel with
  | O => None
  | S fuel' =>
      match skip_ws s with
      | EmptyString => None
      | String q r =>
          if (byte q =? 34)%N then
            match parse_chars r with
            | None => None
            | Some (k, rest) =>
                match skip_ws rest with
                | EmptyString => None
                | String colon r1 =>
                    if (byte colon =? 58)%N then
                      match parse_value fuel' r1 with
                      | None => None
                      | Some (v, rest1) =>
                          match skip_ws rest1 with
                          | EmptyString => None
                          | String b r2 =>
                              if (byte b =? 44)%N then
                                parse_members fuel' r2
                                  (define_property k v acc)
                              else if (byte b =? 125)%N then
                                Some (JObj (define_property k v acc), r2)
                              else None
                          end
                      end
                    else None
                end
            end
          else None
      end
  end.

Definition parse (s : string) : option json :=
  match parse_value (String.length s) s with
  | Some (v, rest) =>
      match skip_ws rest with
      | EmptyString => Some v
      | _ => None
      end
  | None => None
  end.

End Ref.

Definition RefCodec : JSONCodec := {|
  JSON_parse := Ref.parse;
  JSON_stringify := Ref.stringify
|}.

(* ================================================================== *)
(* ================================================================== *)
(** ** Notions used in the statements *)

(** What a request reads from the file: [load d] is the result of
    [readBooks] on [d]. *)
Definition load {codec : JSONCodec} (d : disk) : outcome (list json) :=
  fst (run readBooks d).

(** [save(load())]. *)
Definition save_load {codec : JSONCodec} : io unit :=
  books <- readBooks ;; writeBooks books.

(** The ids that are numbers, in order. *)
Definition numeric_ids (books : list json) : list number :=
  flat_map (fun b => match prop b "id" with
                     | Some (JNum x) => [x]
                     | _ => []
                     end) books.

(** The largest of 0 and the numeric ids, when these are integers. *)
Definition largest_id (books : list json) : Z :=
  fold_right Z.max 0 (map numerator (numeric_ids books)).


Definition id_of (b : json) : option json := prop b "id".

(** [available === true]. *)
Definition available_true (b : json) : bool :=
  match prop b "available" with
  | Some (JBool true) => true
  | _ => false
  end.

(** [l1] is [l2] with some elements left out. *)
Inductive subsequence {A : Type} : list A -> list A -> Prop :=
| sub_nil : subsequence [] []
| sub_skip x l1 l2 : subsequence l1 l2 -> subsequence l1 (x :: l2)
| sub_keep x l1 l2 : subsequence l1 l2 -> subsequence (x :: l1) (x :: l2).

(** Falsy values of a field of the body: missing, null, false, 0, or
    the empty string. *)
Definition falsy_field (v : option json) : Prop :=
  v = None \/ v = Some JNull \/ v = Some (JBool false)
  \/ v = Some (JNum (Integer 0)) \/ v = Some (JStr "").

(** A field that is missing or empty. *)
Definition missing_or_empty (v : option json) : Prop :=
  v = None \/ v = Some (JStr "").

Definition is_boolean (v : option json) : Prop :=
  exists b, v = Some (JBool b).

(** A value for which [String] throws: an object with a property
    [toString], or an array that holds such a value. *)
Inductive unprintable : json -> Prop :=
| unprintable_object kvs :
    In "toString" (keys kvs) -> unprintable (JObj kvs)
| unprintable_array xs x :
    In x xs -> unprintable x -> unprintable (JArr xs).

(** A field that [String] can turn into text. *)
Definition printable (v : option json) : Prop :=
  forall x, v = Some x -> ~ unprintable x.

(** A record with the four fields of a book. *)
Definition book (id : Z) (title author : string) (available : bool)
  : json :=
  JObj [("id", JNum (Integer id)); ("title", JStr title);
        ("author", JStr author); ("available", JBool available)].



(** Two file contents that denote the same JSON value. *)
Definition same_modulo_formatting {codec : JSONCodec} (s1 s2 : string)
  : Prop :=
  exists v, JSON_parse s1 = Some v /\ JSON_parse s2 = Some v.

Definition good_disk (d : disk) : Prop :=
  read_fails d = false /\ write_fails d = false.

Definition with_content (d : disk) (data : string) : disk :=
  mkDisk (Some data) (read_fails d) (write_fails d).

(** Requests served one after the other. *)
Fixpoint run_all {A : Type} (ms : list (io A)) (d : disk)
  : list (outcome A) * disk :=
  match ms with
  | [] => ([], d)
  | m :: rest =>
      let (r, d1) := run m d in
      let (rs, d2) := run_all rest d1 in
      (r :: rs, d2)
  end.

Fixpoint advance_n {A : Type} (n : nat) (m : io A) (d : disk)
  : io A * disk :=
  match n with
  | O => (m, d)
  | S n' => let (m', d') := advance m d in advance_n n' m' d'
  end.

(** [m] awaits at most [n] file operations, whatever they answer. *)
Fixpoint awaits_at_most {A : Type} (n : nat) (m : io A) {struct m}
  : Prop :=
  match m with
  | Ret _ | Throw _ => True
  | ReadFile k =>
      match n with
      | O => False
      | S n' => forall r, awaits_at_most n' (k r)
      end
  | WriteFile _ k =>
      match n with
      | O => False
      | S n' => forall r, awaits_at_most n' (k r)
      end
  end.

(** A body that [POST /books] accepts, and one that it can store:
    [title] and [author] are truthy, and [String] can turn them into
    text. *)
Definition accepted (body : option json) : Prop :=
  truthy_u (prop (or_empty body) "title") = true
  /\ truthy_u (prop (or_empty body) "author") = true.

Definition creatable (body : option json) : Prop :=
  accepted body
  /\ printable (prop (or_empty body) "title")
  /\ printable (prop (or_empty body) "author").

(** The [available] that a creation stores. *)
Definition stored_available (body : option json) : bool :=
  match prop (or_empty body) "available" with
  | Some (JBool b) => b
  | _ => false
  end.

(** The text of a field, where [String] gives one. *)
Definition text_of (v : option json) : string :=
  match String_u v with
  | Val s => s
  | Exn _ => ""
  end.

(** The record with id [id] that the creation with body [body] stores. *)
Definition made (id : Z) (body : option json) : json :=
  let b := or_empty body in
  book id (text_of (prop b "title")) (text_of (prop b "author"))
    (stored_available body).

(** The records that successive creations append to a collection whose
    largest id is [maxId]. *)
Fixpoint created (maxId : Z) (bodies : list (option json)) : list json :=
  match bodies with
  | [] => []
  | body :: rest => made (maxId + 1) body :: created (maxId + 1) rest
  end.

(** *** The [:id] parameter *)

(** White space that [parseInt] skips. *)
Inductive white : string -> Prop :=
| white_nil : white ""
| white_1 a s :
    ascii_space (byte a) = true -> white s -> white (String a s)
| white_2 a b s :
    space2 (byte a) (byte b) = true -> white s ->
    white (String a (String b s))
| white_3 a b c s :
    space3 (byte a) (byte b) (byte c) = true -> white s ->
    white (String a (String b (String c s))).

Definition decimal_digit (a : ascii) : bool :=
  let c := byte a in ((48 <=? c) && (c <=? 57))%N.

Fixpoint all_digits (s : string) : bool :=
  match s with
  | EmptyString => true
  | String a rest => decimal_digit a && all_digits rest
  end.

(** The integer that a string of digits spells. *)
Definition spelled (ds : string) : Z :=
  match NilEmpty.uint_of_string ds with
  | Some u => Z.of_uint u
  | None => 0
  end.

(** [idStr] is white space, an optional sign, the digits of [n] and a
    rest that does not go on with a digit. *)
Definition leading_integer (idStr : string) (n : Z) : Prop :=
  exists ws sign ds rest,
    idStr = (ws ++ sign ++ ds ++ rest)%string
    /\ white ws
    /\ (sign = "" \/ sign = "+" \/ sign = "-")
    /\ ds <> "" /\ all_digits ds = true
    /\ starts_with_digit rest = false
    /\ n = if String.eqb sign "-" then - spelled ds else spelled ds.

(** A string that is an integer numeral and nothing else: an optional
    sign and digits. *)
Definition integer_numeral (s : string) : bool :=
  match s with
  | String a rest =>
      if ((byte a =? 45) || (byte a =? 43))%N
      then negb (String.eqb rest "") && all_digits rest
      else all_digits s
  | EmptyString => false
  end.

(** *** Text and its parsing by the reference codec *)

(** Fuel that [Ref.parse_value] needs for the text of a value. *)
Fixpoint weight (v : json) : nat :=
  match v with
  | JArr xs => S (fold_right (fun x acc => S (weight x + acc)%nat) O xs)
  | JObj kvs =>
      S (fold_right (fun kv acc => S (weight (snd kv) + acc)%nat) O kvs)
  | _ => 1%nat
  end.

(** Text made of JSON white space only. *)
Fixpoint blank (s : string) : bool :=
  match s with
  | EmptyString => true
  | String a rest => Ref.is_ws a && blank rest
  end.

(** A text before which a number literal ends. *)
Definition number_ends (s : string) : Prop :=
  match s with
  | EmptyString => True
  | String a _ => Ref.is_digit a = false /\ Ref.more_number s = false
  end.

(** A first character that is not white space and closes neither an
    array nor an object: every value's text starts with one. *)
Definition opens (a : ascii) : Prop :=
  Ref.is_ws a = false /\ byte a <> 93%N /\ byte a <> 125%N.

(** The text of [v], at any indentation and after any white space, parses
    back to [v] and leaves what follows it. *)
Definition parses_back (v : json) : Prop :=
  forall indent ws fuel rest,
    blank indent = true -> blank ws = true -> number_ends rest ->
    (weight v <= fuel)%nat ->
    Ref.parse_value fuel (ws ++ Ref.stringify_at indent v ++ rest)
    = Some (v, rest).

(** Concrete files and bodies. *)
Definition no_file : disk := mkDisk None false false.

Definition file (data : string) : disk := mkDisk (Some data) false false.

Definition stored (books : list json) : disk :=
  file (Ref.stringify (JArr books)).

Definition titled (title author : string) : option json :=
  Some (JObj [("title", JStr title); ("author", JStr author)]).


(* ================================================================== *)
(** ** Running handlers *)

Local Open Scope list_scope.

Section Facts.

Context {codec : JSONCodec}.

(** Induction on values, with the hypothesis for every element. *)
Lemma json_induction (P : json -> Prop) :
  P JNull -> (forall b, P (JBool b)) -> (forall n, P (JNum n)) ->
  (forall s, P (JStr s)) ->
  (forall xs, Forall P xs -> P (JArr xs)) ->
  (forall kvs, Forall (fun kv => P (snd kv)) kvs -> P (JObj kvs)) ->
  forall v, P v.
Proof.
  intros Hnull Hbool Hnum Hstr Harr Hobj.
  fix IH 1; intros [| b | n | s | xs | kvs].
  - exact Hnull.
  - apply Hbool.
  - apply Hnum.
  - apply Hstr.
  - apply Harr; induction xs as [| x xs IHxs]; constructor;
      [apply IH | exact IHxs].
  - apply Hobj; induction kvs as [| [k x] kvs IHkvs]; constructor;
      [apply IH | exact IHkvs].
Qed.

Lemma run_bind {A B : Type} (m : io A) (f : A -> io B) (d : disk) :
  run (bind m f) d =
  match run m d with
  | (Val a, d') => run (f a) d'
  | (Exn e, d') => (Exn e, d')
  end.
Proof.
  revert d; induction m as [a | e | k IH | data k IH]; intro d; simpl; auto.
  destruct (fs_write data d) as [r d']; apply IH.
Qed.

Lemma run_try_catch {A : Type} (m : io A) (h : exn -> io A) (d : disk) :
  run (try_catch m h) d =
  match run m d with
  | (Val a, d') => (Val a, d')
  | (Exn e, d') => run (h e) d'
  end.
Proof.
  revert d; induction m as [a | e | k IH | data k IH]; intro d; simpl; auto.
  destruct (fs_write data d) as [r d']; apply IH.
Qed.

Lemma run_lift {A : Type} (r : outcome A) (d : disk) : run (lift r) d = (r, d).
Proof. destruct r; reflexivity. Qed.

(** [readBooks] never writes. *)
Lemma run_readBooks (d : disk) : run readBooks d = (load d, d).
Proof.
  unfold load, readBooks, readFile; simpl.
  destruct (fs_read d) as [data | e]; simpl.
  - destruct (JSON_parse data) as [v |]; reflexivity.
  - destruct (code_is e "ENOENT"); reflexivity.
Qed.

Lemma load_eq (d : disk) :
  load d =
  match fs_read d with
  | Val data =>
      match JSON_parse data with
      | None => Exn SyntaxError
      | Some (JArr books) => Val books
      | Some _ => Val []
      end
  | Exn e => if code_is e "ENOENT" then Val [] else Exn e
  end.
Proof.
  unfold load, readBooks, readFile; simpl.
  destruct (fs_read d) as [data | e]; simpl.
  - destruct (JSON_parse data) as [[] |]; reflexivity.
  - destruct (code_is e "ENOENT"); reflexivity.
Qed.

Lemma run_writeBooks (books : list json) (d : disk) :
  run (writeBooks books) d = fs_write (JSON_stringify (JArr books)) d.
Proof.
  unfold writeBooks, writeFile; simpl.
  destruct (fs_write _ d) as [[[] | e] d']; reflexivity.
Qed.

Lemma fs_write_good (data : string) (d : disk) :
  write_fails d = false -> fs_write data d = (Val tt, with_content d data).
Proof. destruct d; unfold fs_write, with_content; simpl; intros ->; reflexivity. Qed.

Lemma fs_write_cases (data : string) (d : disk) :
  (write_fails d = false /\ fs_write data d = (Val tt, with_content d data))
  \/ (write_fails d = true /\ fs_write data d = (Exn (FsError "EIO"), d)).
Proof.
  destruct d as [c r []]; unfold fs_write, with_content; simpl; auto.
Qed.

(** What [POST /books] does, case by case. *)
Lemma run_post_books (body : option json) (d : disk) :
  run (post_books body) d =
  let b := or_empty body in
  let failed := (Val (Json 500 (error_body "Failed to add book.")), d) in
  if negb (truthy_u (prop b "title")) || negb (truthy_u (prop b "author"))
  then (Val (Json 400 (error_body "title and author are required")), d)
  else
    match load d with
    | Exn _ => failed
    | Val books =>
        match reduce max_step books (Integer 0) with
        | Exn _ => failed
        | Val maxId =>
            match String_u (prop b "title") with
            | Exn _ => failed
            | Val title =>
                match String_u (prop b "author") with
                | Exn _ => failed
                | Val author =>
                    let book := newBook maxId title author
                                  (prop b "available") in
                    match fs_write (JSON_stringify (JArr (books ++ [book])))
                            d with
                    | (Val _, d') => (Val (Json 201 book), d')
                    | (Exn _, d') =>
                        (Val (Json 500 (error_body "Failed to add book.")),
                         d')
                    end
                end
            end
        end
    end.
Proof.
  unfold post_books; cbv zeta.
  destruct (negb _ || negb _); [reflexivity |].
  rewrite run_try_catch, run_bind, run_readBooks.
  destruct (load d) as [books | e]; [| reflexivity].
  rewrite run_bind, run_lift.
  destruct (reduce max_step books (Integer 0)) as [maxId | e]; [| reflexivity].
  rewrite run_bind, run_lift.
  destruct (String_u (prop (or_empty body) "title")) as [title | e];
    [| reflexivity].
  rewrite run_bind, run_lift.
  destruct (String_u (prop (or_empty body) "author")) as [author | e];
    [| reflexivity].
  rewrite run_bind, run_writeBooks.
  destruct (fs_write _ d) as [[[] | e] d']; reflexivity.
Qed.

(** What [PUT /books/:id] does, case by case. *)
Lemma run_put_books_id (idStr : string) (body : option json) (d : disk) :
  run (put_books_id idStr body) d =
  let failed := (Val (Json 500 (error_body "Failed to update book.")), d) in
  match parseId idStr with
  | None => (Val (Json 400 (error_body "Invalid id")), d)
  | Some id =>
      let updates := or_empty body in
      if negb (existsb (includes allowed) (Object_keys updates)) then
        (Val (Json 400 (error_body
           "At least one of title, author, available must be provided")), d)
      else
        match load d with
        | Exn _ => failed
        | Val books =>
            match findIndex (has_id id) books with
            | None => (Val (Json 404 (error_body "Book not found")), d)
            | Some idx =>
                match nth_error books idx with
                | None => failed
                | Some book =>
                    match apply_updates book updates with
                    | Exn _ => failed
                    | Val book =>
                        match fs_write (JSON_stringify
                                          (JArr (set_nth idx book books))) d
                        with
                        | (Val _, d') => (Val (Json 200 book), d')
                        | (Exn _, d') =>
                            (Val (Json 500
                                    (error_body "Failed to update book.")),
                             d')
                        end
                    end
                end
            end
        end
  end.
Proof.
  unfold put_books_id; cbv zeta.
  destruct (parseId idStr) as [id |]; [| reflexivity].
  destruct (negb _); [reflexivity |].
  rewrite run_try_catch, run_bind, run_readBooks.
  destruct (load d) as [books | e]; [| reflexivity].
  destruct (findIndex (has_id id) books) as [idx |]; [| reflexivity].
  destruct (nth_error books idx) as [book |]; [| reflexivity].
  rewrite run_bind, run_lift.
  destruct (apply_updates book (or_empty body)) as [book' | e];
    [| reflexivity].
  rewrite run_bind, run_writeBooks.
  destruct (fs_write _ d) as [[[] | e] d']; reflexivity.
Qed.

(** What [DELETE /books/:id] does, case by case. *)
Lemma run_delete_books_id (idStr : string) (d : disk) :
  run (delete_books_id idStr) d =
  match parseId idStr with
  | None => (Val (Json 400 (error_body "Invalid id")), d)
  | Some id =>
      match load d with
      | Exn _ => (Val (Json 500 (error_body "Failed to delete book.")), d)
      | Val books =>
          match findIndex (has_id id) books with
          | None => (Val (Json 404 (error_body "Book not found")), d)
          | Some idx =>
              match fs_write (JSON_stringify (JArr (splice1 idx books))) d with
              | (Val _, d') => (Val (Send 204), d')
              | (Exn _, d') =>
                  (Val (Json 500 (error_body "Failed to delete book.")), d')
              end
          end
      end
  end.
Proof.
  unfold delete_books_id.
  destruct (parseId idStr) as [id |]; [| reflexivity].
  rewrite run_try_catch, run_bind, run_readBooks.
  destruct (load d) as [books | e]; [| reflexivity].
  destruct (findIndex (has_id id) books) as [idx |]; [| reflexivity].
  rewrite run_bind, run_writeBooks.
  destruct (fs_write _ d) as [[[] | e] d']; reflexivity.
Qed.

Lemma run_get_books (d : disk) :
  run get_books d =
  match load d with
  | Val books => (Val (Json 200 (JArr books)), d)
  | Exn _ => (Val (Json 500 (error_body "Failed to read books.")), d)
  end.
Proof.
  unfold get_books.
  rewrite run_try_catch, run_bind, run_readBooks.
  destruct (load d); reflexivity.
Qed.

Lemma run_get_books_available (d : disk) :
  run get_books_available d =
  match load d with
  | Val books => (Val (Json 200 (JArr (filter is_available books))), d)
  | Exn _ => (Val (Json 500 (error_body "Failed to read books.")), d)
  end.
Proof.
  unfold get_books_available.
  rewrite run_try_catch, run_bind, run_readBooks.
  destruct (load d); reflexivity.
Qed.

(** *** Objects and lists *)

Lemma assoc_set_same (k : string) (v : json) (kvs : list (string * json)) :
  assoc k (assoc_set k v kvs) = Some v.
Proof.
  induction kvs as [| [k' v'] rest IH]; simpl.
  - now rewrite String.eqb_refl.
  - destruct (String.eqb k k') eqn:E; simpl.
    + now rewrite String.eqb_refl.
    + now rewrite E.
Qed.

Lemma assoc_set_other (k k' : string) (v : json) (kvs : list (string * json)) :
  k <> k' -> assoc k' (assoc_set k v kvs) = assoc k' kvs.
Proof.
  intro ne; induction kvs as [| [k0 v0] rest IH]; simpl.
  - destruct (String.eqb_spec k' k); [congruence | reflexivity].
  - destruct (String.eqb_spec k k0) as [-> | ne0]; simpl.
    + destruct (String.eqb_spec k' k0); [congruence | reflexivity].
    + destruct (String.eqb_spec k' k0); [reflexivity | exact IH].
Qed.

Lemma assoc_In_keys (k : string) (v : json) (kvs : list (string * json)) :
  assoc k kvs = Some v -> In k (keys kvs).
Proof.
  induction kvs as [| [k' v'] rest IH]; simpl; [discriminate |].
  destruct (String.eqb_spec k k') as [-> | ne]; auto.
Qed.

Lemma assoc_None_keys (k : string) (kvs : list (string * json)) :
  assoc k kvs = None <-> ~ In k (keys kvs).
Proof.
  induction kvs as [| [k' v'] rest IH]; simpl; [tauto |].
  destruct (String.eqb_spec k k') as [-> | ne].
  - split; [discriminate | intro H; exfalso; apply H; now left].
  - rewrite IH; split; intro H; [intros [e | i]; [congruence | tauto] | tauto].
Qed.


Lemma assoc_set_fresh (k : string) (v : json) (kvs : list (string * json)) :
  ~ In k (keys kvs) -> assoc_set k v kvs = (kvs ++ [(k, v)])%list.
Proof.
  induction kvs as [| [k' v'] rest IH]; simpl; intro H; [reflexivity |].
  destruct (String.eqb_spec k k') as [-> | ne]; [tauto |].
  rewrite IH; tauto.
Qed.

(** *** The order of the properties *)

Lemma no_index_In (ks : list string) (k : string) (i : N) :
  no_index ks = true -> In k ks -> array_index k = Some i -> False.
Proof.
  unfold no_index; rewrite forallb_forall; intros H Hk E.
  specialize (H k Hk); rewrite E in H; discriminate.
Qed.

Lemma no_index_ordered (ks : list string) :
  no_index ks = true -> ordered ks = true.
Proof.
  induction ks as [| k ks IH]; [reflexivity |].
  unfold no_index; cbn [forallb]; fold (no_index ks); intro H.
  apply andb_prop in H as [Hk Hks]; cbn [ordered].
  destruct (array_index k); [discriminate | exact Hks].
Qed.

Lemma ordered_index (k : string) (i : N) (ks : list string) :
  array_index k = Some i ->
  ordered (k :: ks)
  = match ks with
    | k' :: _ => match array_index k' with
                 | Some j => (i <? j)%N
                 | None => true
                 end
    | [] => true
    end && ordered ks.
Proof. intro E; cbn [ordered]; now rewrite E. Qed.

Lemma ordered_string (k : string) (ks : list string) :
  array_index k = None -> ordered (k :: ks) = no_index ks.
Proof. intro E; cbn [ordered]; now rewrite E. Qed.

Lemma ordered_tail (k : string) (ks : list string) :
  ordered (k :: ks) = true -> ordered ks = true.
Proof.
  cbn [ordered]; destruct (array_index k).
  - intro H; now apply andb_prop in H as [_ H].
  - apply no_index_ordered.
Qed.

(** After an array index come larger indices only. *)
Lemma ordered_above (ks : list string) (k : string) (j : N) :
  ordered (k :: ks) = true -> array_index k = Some j ->
  forall x i, In x ks -> array_index x = Some i -> (j < i)%N.
Proof.
  revert k j; induction ks as [| k0 ks IH]; intros k j O E x i Hx Ex;
    [contradiction |].
  pose proof (ordered_tail _ _ O) as Ot.
  rewrite (ordered_index _ _ _ E) in O; apply andb_prop in O as [H0 _].
  destruct (array_index k0) as [j0 |] eqn:E0.
  - apply N.ltb_lt in H0.
    destruct Hx as [<- | Hx]; [rewrite E0 in Ex; injection Ex as <-; exact H0 |].
    specialize (IH k0 j0 Ot E0 x i Hx Ex); lia.
  - exfalso; rewrite (ordered_string _ _ E0) in Ot.
    destruct Hx as [<- | Hx]; [congruence |].
    eapply no_index_In; eassumption.
Qed.

Lemma ordered_prefix (l1 l2 : list string) :
  ordered (l1 ++ l2) = true -> ordered l1 = true.
Proof.
  induction l1 as [| k l1 IH]; [reflexivity |].
  cbn [app]; destruct (array_index k) as [i |] eqn:E.
  - rewrite !(ordered_index _ _ _ E).
    intro H; apply andb_prop in H as [H1 H2]; rewrite (IH H2), andb_true_r.
    destruct l1 as [| k' l1]; [reflexivity | exact H1].
  - rewrite !(ordered_string _ _ E).
    unfold no_index; rewrite forallb_app; intro H.
    now apply andb_prop in H as [H _].
Qed.

(** A property whose key comes last in the order of enumeration is put
    last. *)
Lemma insert_index_last (i : N) (k : string) (v : json)
  (kvs : list (string * json)) :
  array_index k = Some i -> ordered (keys kvs ++ [k]) = true ->
  ~ In k (keys kvs) ->
  insert_index i k v kvs = kvs ++ [(k, v)].
Proof.
  intros E; induction kvs as [| [k' v'] kvs IH]; intros O NI; [reflexivity |].
  cbn [keys map fst app] in O; fold (keys kvs) in O.
  cbn [insert_index].
  destruct (array_index k') as [j |] eqn:E'.
  - assert (Lt : (j < i)%N).
    { apply (ordered_above _ _ _ O E' k i); [| exact E].
      apply in_or_app; right; now left. }
    destruct (N.ltb_spec i j); [lia |].
    destruct (N.eqb_spec i j); [lia |].
    cbn [app]; f_equal; apply IH.
    + exact (ordered_tail _ _ O).
    + intro H'; apply NI; now right.
  - exfalso; rewrite (ordered_string _ _ E') in O.
    apply (no_index_In _ k i O); [| exact E].
    apply in_or_app; right; now left.
Qed.

Lemma define_property_last (k : string) (v : json)
  (kvs : list (string * json)) :
  ordered (keys kvs ++ [k]) = true -> ~ In k (keys kvs) ->
  define_property k v kvs = kvs ++ [(k, v)].
Proof.
  intros O NI; unfold define_property.
  destruct (array_index k) as [i |] eqn:E.
  - now apply insert_index_last.
  - now apply assoc_set_fresh.
Qed.











Lemma prop_set_prop_same (kvs : list (string * json)) (k : string) (v : json) :
  prop (set_prop (JObj kvs) k v) k = Some v.
Proof. apply assoc_set_same. Qed.

Lemma prop_set_prop_other (b : json) (k k' : string) (v : json) :
  k <> k' -> prop (set_prop b k v) k' = prop b k'.
Proof. destruct b; simpl; auto using assoc_set_other. Qed.

Lemma number_eqb_eq (x y : number) : number_eqb x y = true <-> x = y.
Proof.
  destruct x as [n | n k | a], y as [m | m j | b]; simpl;
    try (split; [discriminate | congruence]).
  - rewrite Z.eqb_eq; split; congruence.
  - rewrite andb_true_iff, Z.eqb_eq, Pos.eqb_eq; split;
      [intros [-> ->]; reflexivity | intros [= -> ->]; auto].
  - rewrite eqb_true_iff; split; congruence.
Qed.

Lemma has_id_spec (id : number) (b : json) :
  has_id id b = true <-> prop b "id" = Some (JNum id).
Proof.
  unfold has_id; split.
  - intro H; apply andb_prop in H as [_ H].
    destruct (prop b "id") as [[] |]; try discriminate.
    apply number_eqb_eq in H; now subst.
  - intro H; rewrite H, (proj2 (number_eqb_eq id id) eq_refl), andb_true_r.
    destruct b; simpl in *; try discriminate; reflexivity.
Qed.

Lemma has_id_object (id : number) (b : json) :
  has_id id b = true -> exists kvs, b = JObj kvs.
Proof.
  intro H; apply has_id_spec in H; destruct b; simpl in *; try discriminate.
  eauto.
Qed.

Lemma is_available_spec (b : json) : is_available b = available_true b.
Proof.
  unfold is_available, available_true.
  destruct (truthy b) eqn:T; [reflexivity |].
  destruct b; simpl in *; try reflexivity; discriminate.
Qed.

Lemma findIndex_Some {A : Type} (p : A -> bool) (l : list A) (i : nat) :
  findIndex p l = Some i ->
  exists x, nth_error l i = Some x /\ p x = true
            /\ forall j y, (j < i)%nat -> nth_error l j = Some y -> p y = false.
Proof.
  revert i; induction l as [| a l IH]; simpl; intros i H; [discriminate |].
  destruct (p a) eqn:Pa.
  - injection H as <-; exists a; repeat split; auto; intros; lia.
  - destruct (findIndex p l) as [i' |]; [| discriminate].
    injection H as <-; destruct (IH i' eq_refl) as (x & Hx & Px & Hlt).
    exists x; repeat split; auto.
    intros [| j] y Hj Hy; simpl in Hy.
    + now injection Hy as <-.
    + apply (Hlt j); [lia | assumption].
Qed.

Lemma findIndex_None {A : Type} (p : A -> bool) (l : list A) :
  findIndex p l = None <-> forall x, In x l -> p x = false.
Proof.
  induction l as [| a l IH]; simpl.
  - split; [intros _ x [] | reflexivity].
  - destruct (p a) eqn:Pa.
    + split; [discriminate | intro H; rewrite (H a) in Pa; auto; discriminate].
    + destruct (findIndex p l) as [i |].
      * split; [discriminate |].
        intro H; destruct IH as [_ IH].
        assert (E : Some i = None) by (apply IH; intros; apply H; now right).
        discriminate E.
      * split; [| reflexivity].
        intros _ x [<- | Hx]; [assumption |].
        destruct IH as [IH _]; now apply IH.
Qed.

Lemma set_nth_length {A : Type} (i : nat) (v : A) (l : list A) :
  List.length (set_nth i v l) = List.length l.
Proof.
  revert i; induction l as [| a l IH]; intros [| i]; simpl; auto.
Qed.

Lemma set_nth_same {A : Type} (i : nat) (v x : A) (l : list A) :
  nth_error l i = Some x -> nth_error (set_nth i v l) i = Some v.
Proof.
  revert i; induction l as [| a l IH]; intros [| i]; simpl; try discriminate;
    auto.
Qed.

Lemma set_nth_other {A : Type} (i j : nat) (v : A) (l : list A) :
  j <> i -> nth_error (set_nth i v l) j = nth_error l j.
Proof.
  revert i j; induction l as [| a l IH]; intros [| i] [| j] ne; simpl; auto;
    congruence.
Qed.

Lemma truthy_u_false (v : option json) :
  truthy_u v = false <-> falsy_field v.
Proof.
  unfold falsy_field; destruct v as [[| b | n | s | xs | kvs] |];
    cbn [truthy_u truthy].
  - intuition congruence.
  - destruct b; intuition congruence.
  - destruct n as [[| p | p] | m k | a]; simpl;
      intuition (try discriminate; congruence).
  - destruct (String.eqb_spec s "") as [-> | ne]; simpl;
      intuition (try discriminate; congruence).
  - intuition discriminate.
  - intuition discriminate.
  - intuition congruence.
Qed.

Lemma filter_subsequence {A : Type} (p : A -> bool) (l : list A) :
  subsequence (filter p l) l.
Proof.
  induction l as [| a l IH]; simpl; [constructor |].
  destruct (p a); now constructor.
Qed.

Lemma hasAllowed_false (u : json) :
  existsb (includes allowed) (Object_keys u) = false <->
  forall k, In k allowed -> prop u k = None.
Proof.
  assert (idx : forall n, existsb (includes allowed) (index_keys n) = false).
  { intro n; unfold index_keys.
    generalize 0%nat; induction n as [| n IH]; intro s; simpl; auto.
    rewrite IH, orb_false_r.
    unfold includes, allowed; simpl.
    destruct (Nat.to_uint s); reflexivity. }
  destruct u as [| b | n | s | xs | kvs]; simpl; rewrite ?idx;
    try (split; [reflexivity || (intros _ k _; reflexivity) | reflexivity]).
  split.
  - intros H k Hk; apply assoc_None_keys; intro Hin.
    assert (E : existsb (includes allowed) (keys kvs) = true).
    { apply existsb_exists; exists k; split; auto.
      unfold includes; apply existsb_exists; exists k; split; auto.
      apply String.eqb_refl. }
    congruence.
  - intro H; destruct (existsb _ _) eqn:E; [| reflexivity].
    apply existsb_exists in E as (k & Hin & Hk).
    unfold includes in Hk; apply existsb_exists in Hk as (k' & Hk' & Heq).
    apply String.eqb_eq in Heq; subst k'.
    apply H, assoc_None_keys in Hk'; contradiction.
Qed.

(** C2: [readBooks] returns the empty collection when [books.json] does
    not exist; throws when the file exists and its text does not parse as
    JSON; and returns the empty collection when the text parses to a
    value that is not an array. *)
Theorem readBooks_absent_malformed_nonarray (d : disk) :
  read_fails d = false ->
  (content d = None -> run readBooks d = (Val [], d))
  /\ (forall data, content d = Some data -> JSON_parse data = None ->
        run readBooks d = (Exn SyntaxError, d))
  /\ (forall data v, content d = Some data -> JSON_parse data = Some v ->
        (forall xs, v <> JArr xs) -> run readBooks d = (Val [], d)).
Proof.
  intro R; rewrite run_readBooks, load_eq; unfold fs_read; rewrite R.
  split; [| split].
  - intros ->; reflexivity.
  - intros data -> ->; reflexivity.
  - intros data v -> -> nar; destruct v; try reflexivity.
    now contradiction (nar xs).
Qed.

(** C4: [GET /books/available] answers exactly the records of
    [GET /books] whose [available] is the boolean [true], in the same
    order; a record whose [available] is missing or not a boolean never
    appears. *)
Theorem list_available_filters_list_all (d : disk) (all : list json) :
  fst (run get_books d) = Val (Json 200 (JArr all)) ->
  let avail := filter available_true all in
  run get_books_available d = (Val (Json 200 (JArr avail)), d)
  /\ subsequence avail all
  /\ (forall b, In b avail <->
                In b all /\ prop b "available" = Some (JBool true))
  /\ (forall b, In b avail -> is_boolean (prop b "available")).
Proof.
  rewrite run_get_books, run_get_books_available.
  destruct (load d) as [books | e]; simpl; [| discriminate].
  intros [= <-]; split; [| split; [| split]].
  - now rewrite (filter_ext _ _ is_available_spec).
  - apply filter_subsequence.
  - intro b; rewrite filter_In; unfold available_true.
    split; intros [H1 H2]; split; auto.
    + destruct (prop b "available") as [[| [] | | | |] |]; congruence.
    + now rewrite H2.
  - intros b H; apply filter_In in H as [_ H]; unfold available_true in H.
    destruct (prop b "available") as [[| [] | | | |] |]; try discriminate.
    now exists true.
Qed.

(** C5 (amended): [POST /books] answers 400 "title and author are
    required" exactly when [title] or [author] is falsy (missing, null,
    false, 0 or the empty string); whenever it creates a record, the
    record's [available] is the supplied value if that is a boolean and
    [false] otherwise, and the record is appended to the collection. *)
Theorem create_validation_and_available (body : option json) (d : disk) :
  let b := or_empty body in
  (fst (run (post_books body) d)
     = Val (Json 400 (error_body "title and author are required"))
   <-> falsy_field (prop b "title") \/ falsy_field (prop b "author"))
  /\ (forall book,
        fst (run (post_books body) d) = Val (Json 201 book) ->
        (is_boolean (prop b "available") ->
           prop book "available" = prop b "available")
        /\ (~ is_boolean (prop b "available") ->
              prop book "available" = Some (JBool false))
        /\ exists books,
             load d = Val books
             /\ snd (run (post_books body) d)
                = with_content d (JSON_stringify (JArr (books ++ [book])))).
Proof.
  intro b; rewrite run_post_books; fold b; cbv zeta.
  rewrite <- !truthy_u_false.
  assert (No : forall r : outcome response * disk,
             fst r = Val (Json 500 (error_body "Failed to add book.")) ->
             (fst r = Val (Json 400 (error_body "title and author are required"))
              <-> False \/ False)
             /\ (forall book, fst r = Val (Json 201 book) ->
                  (is_boolean (prop b "available") ->
                     prop book "available" = prop b "available")
                  /\ (~ is_boolean (prop b "available") ->
                        prop book "available" = Some (JBool false))
                  /\ exists books,
                       load d = Val books
                       /\ snd r = with_content d
                                    (JSON_stringify (JArr (books ++ [book]))))).
  { intros r E; rewrite E; split; [| discriminate].
    split; [discriminate | intros []; contradiction]. }
  destruct (truthy_u (prop b "title")) eqn:T;
    destruct (truthy_u (prop b "author")) eqn:A; simpl;
    try (split; [split; auto | discriminate]).
  assert (TF : (true = false \/ true = false) <-> False \/ False)
    by (split; intros []; discriminate || contradiction).
  rewrite TF.
  destruct (load d) as [books | e]; [| now apply No].
  destruct (reduce max_step books (Integer 0)) as [maxId | e];
    [| now apply No].
  destruct (String_u (prop b "title")) as [title | e]; [| now apply No].
  destruct (String_u (prop b "author")) as [author | e]; [| now apply No].
  destruct (fs_write_cases
              (JSON_stringify
                 (JArr (books ++ [newBook maxId title author
                                    (prop b "available")])))
              d) as [[W ->] | [W ->]]; [| now apply No].
  split; [split; [discriminate | intros []; contradiction] |].
  simpl; intros book [= <-]; repeat split.
  - intros [x ->]; reflexivity.
  - intro nb; unfold newBook; simpl.
    destruct (prop b "available") as [[] |]; try reflexivity.
    exfalso; apply nb; now eexists.
  - exists books; auto.
Qed.

(** *** [String] *)

Lemma String_array (xs : list json) :
  String_ (JArr xs) =
  outcome_map (join ",")
    (fold_right
       (fun x acc =>
          match (match x with JNull => Val ""%string | _ => String_ x end) with
          | Exn e => Exn e
          | Val s => match acc with
                     | Exn e => Exn e
                     | Val l => Val (s :: l)
                     end
          end) (Val []) xs).
Proof.
  reflexivity.
Qed.

(** [String] throws exactly on the values that hold an object with a
    property [toString]. *)
Lemma String_throws (v : json) :
  (exists e, String_ v = Exn e) <-> unprintable v.
Proof.
  induction v as [| b | x | s | xs IH | kvs _] using json_induction.
  - split; [intros [e H]; discriminate | inversion 1].
  - split; [intros [e H]; destruct b; discriminate | inversion 1].
  - split; [intros [e H]; discriminate | inversion 1].
  - split; [intros [e H]; discriminate | inversion 1].
  - rewrite String_array.
    assert (L : (exists e,
                   fold_right
                     (fun x acc =>
                        match (match x with
                               | JNull => Val ""%string
                               | _ => String_ x
                               end) with
                        | Exn e => Exn e
                        | Val s => match acc with
                                   | Exn e => Exn e
                                   | Val l => Val (s :: l)
                                   end
                        end) (Val []) xs = Exn e)
               <-> exists x, In x xs /\ unprintable x).
    { induction IH as [| x l Hx _ Hl].
      - split; [intros [e H]; discriminate | intros (x & [] & _)].
      - cbn [fold_right].
        assert (Hn : match x with
                     | JNull => Val ""%string
                     | _ => String_ x
                     end = String_ x
                     \/ x = JNull)
          by (destruct x; auto).
        split.
        + intros [e H].
          destruct Hn as [Hn | ->].
          * rewrite Hn in H.
            destruct (String_ x) as [s |e'] eqn:Sx.
            -- destruct (fold_right _ _ l) as [l' | e''] eqn:F;
                 [discriminate |].
               destruct (proj1 Hl (ex_intro _ e'' eq_refl)) as (y & Iy & Uy).
               exists y; split; [now right | assumption].
            -- exists x; split; [now left |].
               apply Hx; eauto.
          * destruct (fold_right _ _ l) as [l' | e''] eqn:F;
              [discriminate |].
            destruct (proj1 Hl (ex_intro _ e'' eq_refl)) as (y & Iy & Uy).
            exists y; split; [now right | assumption].
        + intros (y & [<- | Iy] & Uy).
          * destruct (proj2 Hx Uy) as [e E].
            destruct x; try discriminate; rewrite E; eauto.
          * destruct (proj2 Hl (ex_intro _ y (conj Iy Uy))) as [e E].
            rewrite E.
            destruct (match x with JNull => _ | _ => _ end); eauto. }
    split.
    + intros [e H].
      destruct (fold_right _ _ xs) as [l | e'] eqn:F; [discriminate |].
      destruct (proj1 L (ex_intro _ e' eq_refl)) as (y & Iy & Uy).
      econstructor; eassumption.
    + inversion 1 as [| ? y Iy Uy]; subst.
      destruct (proj2 L (ex_intro _ y (conj Iy Uy))) as [e E].
      rewrite E; simpl; eauto.
  - cbn [String_]; split.
    + intros [e H]; constructor.
      destruct (assoc "toString" kvs) as [v |] eqn:A; [| discriminate].
      eapply assoc_In_keys; eassumption.
    + inversion 1 as [? Hin |]; subst.
      destruct (assoc "toString" kvs) eqn:A; [eauto |].
      apply assoc_None_keys in A; contradiction.
Qed.

Lemma String_printable (v : json) :
  ~ unprintable v -> exists s, String_ v = Val s.
Proof.
  intro H; destruct (String_ v) as [s | e] eqn:E; [eauto |].
  exfalso; apply H, String_throws; eauto.
Qed.

Lemma printable_text (v : option json) :
  printable v -> String_u v = Val (text_of v).
Proof.
  unfold text_of; destruct v as [x |]; [| reflexivity].
  intro H; destruct (String_printable x (H x eq_refl)) as [s E].
  simpl; now rewrite E.
Qed.

(** *** The fields of an updated record *)

Lemma assign_text_Val (kvs : list (string * json)) (k : string)
  (v : option json) (b' : json) :
  assign_text (JObj kvs) k v = Val b' ->
  (exists kvs', b' = JObj kvs')
  /\ (forall k', k' <> k -> prop b' k' = prop (JObj kvs) k')
  /\ match v with
     | None => b' = JObj kvs
     | Some t => exists s, String_ t = Val s /\ prop b' k = Some (JStr s)
     end.
Proof.
  unfold assign_text; destruct v as [t |].
  - destruct (String_ t) as [s | e]; simpl; [| discriminate].
    intros [= <-]; repeat split; eauto.
    + intros k' ne; apply assoc_set_other; congruence.
    + exists s; split; [reflexivity | apply assoc_set_same].
  - intros [= <-]; repeat split; eauto.
Qed.

Lemma apply_updates_Val (kvs : list (string * json)) (u b' : json) :
  apply_updates (JObj kvs) u = Val b' ->
  (forall t, prop u "title" = Some t ->
             exists s, String_ t = Val s /\ prop b' "title" = Some (JStr s))
  /\ (forall a, prop u "author" = Some a ->
                exists s, String_ a = Val s
                          /\ prop b' "author" = Some (JStr s))
  /\ (forall a, prop u "available" = Some a ->
                prop b' "available" = Some (JBool (truthy a)))
  /\ (forall k, prop u k = None \/ ~ In k allowed ->
                prop b' k = prop (JObj kvs) k).
Proof.
  unfold apply_updates.
  destruct (assign_text (JObj kvs) "title" (prop u "title")) as [b1 | e] eqn:E1;
    [| discriminate].
  destruct (assign_text_Val _ _ _ _ E1) as ([l1 ->] & O1 & T1).
  destruct (assign_text (JObj l1) "author" (prop u "author")) as [b2 | e] eqn:E2;
    [| discriminate].
  destruct (assign_text_Val _ _ _ _ E2) as ([l2 ->] & O2 & T2).
  intros [= <-].
  assert (P3 : forall k, k <> "available" ->
                 prop match prop u "available" with
                      | Some a => set_prop (JObj l2) "available" (JBool (truthy a))
                      | None => JObj l2
                      end k = prop (JObj l2) k).
  { intros k ne; destruct (prop u "available"); [| reflexivity].
    apply prop_set_prop_other; congruence. }
  repeat split.
  - intros t Ht; rewrite Ht in T1; destruct T1 as (s & Hs & Ps).
    exists s; split; [assumption |].
    rewrite P3, O2 by discriminate; exact Ps.
  - intros a Ha; rewrite Ha in T2; destruct T2 as (s & Hs & Ps).
    exists s; split; [assumption |].
    rewrite P3 by discriminate; exact Ps.
  - intros a Ha; rewrite Ha; apply prop_set_prop_same.
  - intros k Hk.
    assert (A1 : k = "title" -> prop u "title" = None).
    { intros ->; destruct Hk as [Hk | Hk]; [exact Hk |].
      exfalso; apply Hk; simpl; tauto. }
    assert (A2 : k = "author" -> prop u "author" = None).
    { intros ->; destruct Hk as [Hk | Hk]; [exact Hk |].
      exfalso; apply Hk; simpl; tauto. }
    assert (A3 : k = "available" -> prop u "available" = None).
    { intros ->; destruct Hk as [Hk | Hk]; [exact Hk |].
      exfalso; apply Hk; simpl; tauto. }
    destruct (string_dec k "available") as [-> | n3].
    { rewrite (A3 eq_refl).
      rewrite O2, O1 by discriminate; reflexivity. }
    rewrite P3 by assumption.
    destruct (string_dec k "author") as [-> | n2].
    { rewrite (A2 eq_refl) in T2; injection T2 as ->.
      apply O1; discriminate. }
    rewrite O2 by assumption.
    destruct (string_dec k "title") as [-> | n1].
    { rewrite (A1 eq_refl) in T1; injection T1 as ->; reflexivity. }
    now apply O1.
Qed.

(** The assignments succeed when [String] does not throw. *)
Lemma apply_updates_printable (b u : json) :
  printable (prop u "title") -> printable (prop u "author") ->
  exists b', apply_updates b u = Val b'.
Proof.
  intros Ht Ha; unfold apply_updates, assign_text.
  destruct (prop u "title") as [t |].
  - destruct (String_printable t (Ht t eq_refl)) as [s ->]; simpl.
    destruct (prop u "author") as [a |]; [| eauto].
    destruct (String_printable a (Ha a eq_refl)) as [s' ->]; simpl; eauto.
  - destruct (prop u "author") as [a |]; [| eauto].
    destruct (String_printable a (Ha a eq_refl)) as [s' ->]; simpl; eauto.
Qed.

(** C6: a successful [PUT /books/:id] overwrites exactly the fields the
    body supplies ([title] and [author] as text, [available] as a
    boolean); every other field of the record, its [id] included, keeps
    its value, and every other record of the collection is written back
    as it was read. *)
Theorem update_overwrites_supplied_fields_only
  (idStr : string) (body : option json) (d d' : disk) (book' : json) :
  run (put_books_id idStr body) d = (Val (Json 200 book'), d') ->
  let u := or_empty body in
  exists id books idx book,
    parseId idStr = Some id /\ load d = Val books
    /\ findIndex (has_id id) books = Some idx
    /\ nth_error books idx = Some book
    /\ (forall t, prop u "title" = Some t ->
                  exists s, String_ t = Val s
                            /\ prop book' "title" = Some (JStr s))
    /\ (forall a, prop u "author" = Some a ->
                  exists s, String_ a = Val s
                            /\ prop book' "author" = Some (JStr s))
    /\ (forall a, prop u "available" = Some a ->
                  prop book' "available" = Some (JBool (truthy a)))
    /\ (forall k, prop u k = None \/ ~ In k allowed ->
                  prop book' k = prop book k)
    /\ prop book' "id" = Some (JNum id) /\ prop book "id" = Some (JNum id)
    /\ d' = with_content d (JSON_stringify (JArr (set_nth idx book' books)))
    /\ List.length (set_nth idx book' books) = List.length books
    /\ nth_error (set_nth idx book' books) idx = Some book'
    /\ (forall j, j <> idx ->
                  nth_error (set_nth idx book' books) j = nth_error books j).
Proof.
  rewrite run_put_books_id; cbv zeta; intro H.
  destruct (parseId idStr) as [id |]; [| discriminate].
  destruct (negb _); [discriminate |].
  destruct (load d) as [books | e]; [| discriminate].
  destruct (findIndex (has_id id) books) as [idx |] eqn:F; [| discriminate].
  destruct (nth_error books idx) as [book |] eqn:N; [| discriminate].
  destruct (apply_updates book (or_empty body)) as [b' | e] eqn:U;
    [| discriminate].
  destruct (fs_write_cases
              (JSON_stringify (JArr (set_nth idx b' books)))
              d) as [[W E] | [W E]]; rewrite E in H; [| discriminate].
  injection H as <- <-.
  exists id, books, idx, book.
  destruct (findIndex_Some _ _ _ F) as (x & Nx & Px & _).
  rewrite N in Nx; injection Nx as <-.
  destruct (has_id_object _ _ Px) as [kvs ->].
  apply has_id_spec in Px.
  destruct (apply_updates_Val _ _ _ U) as (U1 & U2 & U3 & U4).
  repeat split; auto.
  - rewrite U4; [exact Px | right; simpl; intuition discriminate].
  - apply set_nth_length.
  - eapply set_nth_same; eassumption.
  - intros j ne; now apply set_nth_other.
Qed.

(** C7: a failing [PUT /books/:id] leaves the file as it was.  An id
    that no record has yields 404 "Book not found" with the file
    untouched; a body with none of [title], [author], [available] is
    answered 400 by a handler that performs no file operation at all. *)
Theorem failing_update_leaves_store_unchanged
  (idStr : string) (body : option json) :
  (forall d id books,
      parseId idStr = Some id ->
      (exists k, In k allowed /\ prop (or_empty body) k <> None) ->
      load d = Val books ->
      (forall b, In b books -> prop b "id" <> Some (JNum id)) ->
      run (put_books_id idStr body) d
      = (Val (Json 404 (error_body "Book not found")), d))
  /\ ((forall k, In k allowed -> prop (or_empty body) k = None) ->
      exists msg, put_books_id idStr body = Ret (Json 400 (error_body msg)))
  /\ (forall d r d',
        run (put_books_id idStr body) d = (r, d') ->
        (forall book, r <> Val (Json 200 book)) -> d' = d).
Proof.
  split; [| split].
  - intros d id books P [k [Hk Hp]] L NF.
    rewrite run_put_books_id, P; cbv zeta.
    destruct (existsb (includes allowed) (Object_keys (or_empty body))) eqn:E.
    2: { exfalso; apply Hp; exact (proj1 (hasAllowed_false _) E k Hk). }
    simpl; rewrite L.
    assert (F : findIndex (has_id id) books = None).
    { apply findIndex_None; intros b Hb.
      destruct (has_id id b) eqn:Hid; [| reflexivity].
      apply has_id_spec in Hid; now apply NF in Hb. }
    now rewrite F.
  - intro H; apply (proj2 (hasAllowed_false _)) in H.
    unfold put_books_id.
    destruct (parseId idStr); [| eexists; reflexivity].
    cbv zeta; rewrite H; simpl; eexists; reflexivity.
  - intros d r d'; rewrite run_put_books_id; cbv zeta.
    destruct (parseId idStr) as [id |]; [| congruence].
    destruct (negb _); [congruence |].
    destruct (load d) as [books | e]; [| congruence].
    destruct (findIndex (has_id id) books) as [idx |]; [| congruence].
    destruct (nth_error books idx) as [book |]; [| congruence].
    destruct (apply_updates book (or_empty body)) as [b' | e]; [| congruence].
    destruct (fs_write_cases
                (JSON_stringify (JArr (set_nth idx b' books))) d)
      as [[W E] | [W E]]; rewrite E.
    + intros [= <- <-] H; now contradiction (H b').
    + congruence.
Qed.

(** *** Doubles *)

Lemma lowest_power (k : nat) (n : Z) :
  lowest k (n * 2 ^ Z.of_nat k) = Integer n.
Proof.
  revert n; induction k as [| k IH]; intro n.
  - simpl; f_equal; lia.
  - rewrite Nat2Z.inj_succ, Z.pow_succ_r by lia.
    cbn [lowest].
    replace (n * (2 * 2 ^ Z.of_nat k)) with (2 * (n * 2 ^ Z.of_nat k)) by lia.
    rewrite Z.even_mul; simpl orb; cbv iota.
    rewrite Z.mul_comm, Z.div_mul by lia. apply IH.
Qed.

(** An integer up to 2^53 in magnitude is a double. *)
Lemma nearest_integer (n : Z) : Z.abs n <= 2 ^ 53 -> nearest n 1 = Integer n.
Proof.
  intro B.
  destruct (Z.eq_dec (Z.abs n) (2 ^ 53)) as [E | NE].
  { destruct (Z.abs_spec n) as [[_ A] | [_ A]]; rewrite A in E.
    - subst n; vm_compute; reflexivity.
    - assert (n = - 2 ^ 53) by lia; subst n; vm_compute; reflexivity. }
  unfold nearest.
  destruct (Z.eqb_spec n 0) as [-> | N0]; [reflexivity |].
  set (m := Z.abs n).
  assert (M : 0 < m < 2 ^ 53) by (unfold m in *; lia).
  change (Z.log2 1) with 0; rewrite Z.sub_0_r.
  set (L := Z.log2 m).
  destruct (Z.log2_spec m (proj1 M)) as [L1 L2]; fold L in L1, L2.
  assert (L0 : 0 <= L) by apply Z.log2_nonneg.
  assert (L53 : L < 53).
  { destruct (Z.lt_ge_cases L 53) as [H | H]; [exact H |].
    exfalso. assert (2 ^ 53 <= 2 ^ L) by (apply Z.pow_le_mono_r; lia). lia. }
  rewrite (Z.max_l L 0), (Z.max_r (- L) 0) by lia.
  rewrite Z.pow_0_r, Z.mul_1_l, Z.mul_1_r.
  destruct (Z.leb_spec (2 ^ L) m) as [_ | H]; [| lia].
  rewrite (Z.max_l (L - 52) (-1074)) by lia.
  rewrite (Z.max_l (- (L - 52)) 0), (Z.max_r (L - 52) 0) by lia.
  rewrite Z.pow_0_r, Z.mul_1_l.
  rewrite Z.div_1_r, Z.mod_1_r.
  change (2 * 0 <? 1) with true; cbv iota.
  set (j := - (L - 52)).
  assert (J : 0 <= j) by (unfold j; lia).
  destruct (Z.leb_spec 0 (L - 52)) as [U | U].
  - assert (L = 52) by lia.
    assert (j = 0) by (unfold j; lia).
    replace (L - 52) with 0 by lia.
    rewrite H0, Z.pow_0_r, !Z.mul_1_r.
    destruct (Z.leb_spec (2 ^ 1024) m) as [O | _].
    { exfalso. assert (2 ^ 53 < 2 ^ 1024) by (apply Z.pow_lt_mono_r; lia). lia. }
    simpl andb; cbv iota.
    f_equal. unfold m; destruct (Z.ltb_spec n 0); lia.
  - simpl andb; cbv iota.
    replace (if n <? 0 then - (m * 2 ^ j) else m * 2 ^ j)
      with (n * 2 ^ Z.of_nat (Z.to_nat j)).
    + apply lowest_power.
    + rewrite Z2Nat.id by lia.
      unfold m; destruct (Z.ltb_spec n 0); lia.
Qed.

(** [+ 1] is exact on the safe integers. *)
Lemma add1_safe (n : Z) :
  Z.abs n < 2 ^ 53 -> add1 (Integer n) = Integer (n + 1).
Proof. intro B; unfold add1; simpl; apply nearest_integer; lia. Qed.

Lemma gt_integer (a b : Z) : gt (Integer a) (Integer b) = (b <? a).
Proof. unfold gt; simpl; now rewrite !Z.mul_1_r. Qed.

(** *** [parseInt] *)

Lemma digits_cons (a : ascii) (s : string) (acc k : Z) :
  digit_of a = Some k -> digits (String a s) acc = digits s (10 * acc + k).
Proof. intro H; simpl; now rewrite H. Qed.

Lemma digits_end (rest : string) (acc : Z) :
  starts_with_digit rest = false -> digits rest acc = (acc, rest).
Proof.
  destruct rest as [| a r]; simpl; [reflexivity |].
  now destruct (digit_of a).
Qed.

Lemma digits_uint_acc (u : Decimal.uint) (p : positive) (rest : string) :
  starts_with_digit rest = false ->
  digits (NilEmpty.string_of_uint u ++ rest)%string (Z.pos p)
  = (Z.pos (Pos.of_uint_acc u p), rest).
Proof.
  intro E; revert p; induction u; intro p;
    cbn [NilEmpty.string_of_uint append Pos.of_uint_acc];
    [now apply digits_end | ..];
    (erewrite digits_cons by reflexivity);
    match goal with
    | |- digits _ (_ + ?k) = _ =>
        let k' := eval vm_compute in k in change k with k'
    end;
    match goal with
    | |- digits _ ?x = (Z.pos (Pos.of_uint_acc _ ?q), _) =>
        replace x with (Z.pos q) by lia
    end; apply IHu.
Qed.

Lemma digits_uint (u : Decimal.uint) (rest : string) :
  starts_with_digit rest = false ->
  digits (NilEmpty.string_of_uint u ++ rest)%string 0
  = (Z.of_uint u, rest).
Proof.
  intro E; unfold Z.of_uint; induction u;
    cbn [NilEmpty.string_of_uint append Pos.of_uint];
    [now apply digits_end | ..];
    (erewrite digits_cons by reflexivity);
    match goal with
    | |- digits _ ?x = _ => let x' := eval vm_compute in x in change x with x'
    end;
    try exact IHu; rewrite digits_uint_acc by assumption; reflexivity.
Qed.

Lemma decimal_digit_of (a : ascii) :
  decimal_digit a = true <-> exists k, digit_of a = Some k.
Proof.
  unfold decimal_digit, digit_of.
  destruct ((48 <=? byte a) && (byte a <=? 57))%N;
    split; eauto; [discriminate | intros [k H]; discriminate].
Qed.

Lemma starts_with_decimal_digit (a : ascii) (s : string) :
  starts_with_digit (String a s) = decimal_digit a.
Proof.
  unfold starts_with_digit, decimal_digit, digit_of.
  now destruct ((48 <=? byte a) && (byte a <=? 57))%N.
Qed.

Lemma uint_of_digit (a : ascii) (u : Decimal.uint) :
  decimal_digit a = true ->
  exists u', NilEmpty.uint_of_string (String a (NilEmpty.string_of_uint u))
             = Some u'.
Proof.
  intro H; cbn [NilEmpty.uint_of_string]; rewrite NilEmpty.usu.
  destruct a as [[] [] [] [] [] [] [] []]; try discriminate H;
    eexists; reflexivity.
Qed.

(** A string of digits is the numeral of the integer it spells. *)
Lemma all_digits_numeral (ds : string) :
  all_digits ds = true ->
  exists u, NilEmpty.uint_of_string ds = Some u
            /\ NilEmpty.string_of_uint u = ds /\ spelled ds = Z.of_uint u.
Proof.
  intro H.
  assert (E : exists u, NilEmpty.uint_of_string ds = Some u).
  { induction ds as [| a ds IH]; [now exists Decimal.Nil |].
    cbn [all_digits] in H; apply andb_prop in H as [Ha Hds].
    destruct (IH Hds) as [u Eu].
    rewrite <- (NilEmpty.sus _ _ Eu).
    now apply uint_of_digit. }
  destruct E as [u E]; exists u; repeat split; auto.
  - now apply NilEmpty.sus.
  - unfold spelled; now rewrite E.
Qed.

Lemma digits_spelled (ds rest : string) :
  all_digits ds = true -> starts_with_digit rest = false ->
  digits (ds ++ rest)%string 0 = (spelled ds, rest).
Proof.
  intros H R; destruct (all_digits_numeral ds H) as (u & _ & <- & ->).
  now apply digits_uint.
Qed.

(** The digits a string starts with, and the rest. *)
Lemma digits_split (s : string) :
  exists ds rest,
    s = (ds ++ rest)%string /\ all_digits ds = true
    /\ starts_with_digit rest = false
    /\ (starts_with_digit s = true -> ds <> ""%string).
Proof.
  induction s as [| a s (ds & rest & E & D & R & _)].
  - exists ""%string, ""%string; repeat split; auto; discriminate.
  - destruct (decimal_digit a) eqn:A.
    + exists (String a ds), rest; simpl; rewrite A, D, <- E.
      repeat split; auto; discriminate.
    + exists ""%string, (String a s).
      rewrite starts_with_decimal_digit, A.
      repeat split; auto; discriminate.
Qed.

Lemma white_first (a : ascii) :
  (byte a = 43 \/ byte a = 45 \/ 48 <= byte a <= 57)%N ->
  ascii_space (byte a) = false
  /\ (forall b, space2 (byte a) b = false)
  /\ (forall b c, space3 (byte a) b c = false).
Proof.
  intro R; repeat split.
  - unfold ascii_space.
    destruct (N.leb_spec 9 (byte a)), (N.leb_spec (byte a) 13),
      (N.eqb_spec (byte a) 32); simpl; try reflexivity; lia.
  - intro b; unfold space2; apply andb_false_intro1, N.eqb_neq; lia.
  - intros b c; unfold space3.
    repeat (apply orb_false_intro);
      repeat (apply andb_false_intro1); apply N.eqb_neq; lia.
Qed.

Lemma trimStart_numeral (a : ascii) (s : string) :
  (byte a = 43 \/ byte a = 45 \/ 48 <= byte a <= 57)%N ->
  trimStart (String a s) = String a s.
Proof.
  intro R; destruct (white_first a R) as (H1 & H2 & H3).
  destruct s as [| b [| c s]]; simpl; rewrite ?H1, ?H2, ?H3; reflexivity.
Qed.

Lemma space2_first (a b : N) : space2 a b = true -> ascii_space a = false.
Proof.
  unfold space2, ascii_space; intro H; apply andb_prop in H as [H _].
  apply N.eqb_eq in H; subst; reflexivity.
Qed.

Lemma space3_first (a b c : N) :
  space3 a b c = true ->
  ascii_space a = false /\ forall b', space2 a b' = false.
Proof.
  unfold space3, space2, ascii_space; intro H.
  assert (A : (a = 225 \/ a = 226 \/ a = 227 \/ a = 239)%N).
  { repeat (apply orb_prop in H as [H | H]);
      repeat (apply andb_prop in H as [H _]);
      apply N.eqb_eq in H; lia. }
  split; [| intro b'];
    destruct A as [-> | [-> | [-> | ->]]]; reflexivity.
Qed.

Lemma trimStart_white (ws s : string) :
  white ws -> trimStart (ws ++ s)%string = trimStart s.
Proof.
  induction 1 as [| a w A _ IH | a b w A _ IH | a b c w A _ IH].
  - reflexivity.
  - cbn [append trimStart]; now rewrite A.
  - cbn [append trimStart]; now rewrite (space2_first _ _ A), A.
  - destruct (space3_first _ _ _ A) as [A1 A2].
    cbn [append trimStart]; now rewrite A1, A2, A.
Qed.

Lemma trimStart_split (s : string) :
  exists ws, white ws /\ s = (ws ++ trimStart s)%string.
Proof.
  assert (G : forall n s, (String.length s <= n)%nat ->
              exists ws, white ws /\ s = (ws ++ trimStart s)%string).
  { clear s; induction n as [| n IH]; intros s Len.
    - destruct s; [| simpl in Len; lia].
      exists ""%string; split; [constructor | reflexivity].
    - destruct s as [| a r1]; [exists ""%string; split; [constructor | auto] |].
      simpl in Len; cbn [trimStart].
      destruct (ascii_space (byte a)) eqn:A.
      { destruct (IH r1 ltac:(lia)) as (ws & W & E).
        exists (String a ws); split; [now constructor |].
        simpl; now rewrite <- E. }
      destruct r1 as [| b r2];
        [exists ""%string; split; [constructor | reflexivity] |].
      simpl in Len.
      destruct (space2 (byte a) (byte b)) eqn:B.
      { destruct (IH r2 ltac:(lia)) as (ws & W & E).
        exists (String a (String b ws)); split; [now constructor |].
        simpl; now rewrite <- E. }
      destruct r2 as [| c r3];
        [exists ""%string; split; [constructor | reflexivity] |].
      simpl in Len.
      destruct (space3 (byte a) (byte b) (byte c)) eqn:C.
      { destruct (IH r3 ltac:(lia)) as (ws & W & E).
        exists (String a (String b (String c ws))); split; [now constructor |].
        simpl; now rewrite <- E. }
      exists ""%string; split; [constructor | reflexivity]. }
  now apply (G (String.length s)).
Qed.

Lemma decimal_digit_byte (a : ascii) :
  decimal_digit a = true -> (48 <= byte a <= 57)%N.
Proof.
  unfold decimal_digit; intro H; apply andb_prop in H as [H1 H2].
  apply N.leb_le in H1, H2; lia.
Qed.

(** The number that [parseInt] reads from a string that starts with an
    integer. *)
Lemma parseInt10_leading (s : string) (n : Z) :
  leading_integer s n -> parseInt10 s = Some (nearest n 1).
Proof.
  intros (ws & sign & ds & rest & -> & W & S & NE & D & R & ->).
  destruct ds as [| a ds']; [congruence |].
  pose proof D as Da; cbn [all_digits] in Da; apply andb_prop in Da as [Da _].
  pose proof (decimal_digit_byte a Da) as Ba.
  pose proof (digits_spelled _ rest D R) as Dg.
  assert (SD : starts_with_digit (String a ds' ++ rest)%string = true)
    by (cbn [append]; now rewrite starts_with_decimal_digit).
  unfold parseInt10; rewrite trimStart_white by assumption.
  destruct S as [-> | [-> | ->]]; cbn [append String.eqb].
  - rewrite trimStart_numeral by lia.
    destruct (N.eqb_spec (byte a) 45); [lia |].
    destruct (N.eqb_spec (byte a) 43); [lia |].
    cbn [append] in SD, Dg; rewrite SD, Dg; simpl fst.
    now rewrite Z.mul_1_l.
  - rewrite trimStart_numeral by (left; reflexivity).
    change (byte "+" =? 45)%N with false; change (byte "+" =? 43)%N with true.
    cbv iota; cbn [append] in SD, Dg; rewrite SD, Dg; simpl fst.
    now rewrite Z.mul_1_l.
  - rewrite trimStart_numeral by (right; left; reflexivity).
    change (byte "-" =? 45)%N with true.
    cbv iota; cbn [append] in SD, Dg; rewrite SD, Dg; simpl fst.
    do 2 f_equal; lia.
Qed.

Lemma parseInt10_Some (s : string) (x : number) :
  parseInt10 s = Some x -> exists n, leading_integer s n.
Proof.
  unfold parseInt10.
  destruct (trimStart_split s) as (ws & W & E).
  set (t := trimStart s) in *.
  assert (G : forall sign s2,
             (sign = "" \/ sign = "+" \/ sign = "-")%string ->
             t = (sign ++ s2)%string -> starts_with_digit s2 = true ->
             exists n, leading_integer s n).
  { intros sign s2 S T SD.
    destruct (digits_split s2) as (ds & rest & E2 & D & R & NE).
    eexists; exists ws, sign, ds, rest; repeat split; eauto.
    now rewrite E, T, E2. }
  destruct t as [| a r] eqn:T.
  - simpl; discriminate.
  - destruct (byte a =? 45)%N eqn:A1.
    + destruct (starts_with_digit r) eqn:SD; [| discriminate].
      intros _; apply (G "-"%string r); auto.
      apply N.eqb_eq in A1; cbn [append]; f_equal.
      rewrite <- (ascii_N_embedding a); unfold byte in A1; now rewrite A1.
    + destruct (byte a =? 43)%N eqn:A2.
      * destruct (starts_with_digit r) eqn:SD; [| discriminate].
        intros _; apply (G "+"%string r); auto.
        apply N.eqb_eq in A2; cbn [append]; f_equal.
        rewrite <- (ascii_N_embedding a); unfold byte in A2; now rewrite A2.
      * destruct (starts_with_digit (String a r)) eqn:SD; [| discriminate].
        intros _; apply (G ""%string (String a r)); auto.
Qed.

(** [parseId] answers [null] exactly for the strings that do not start
    with an integer. *)
Lemma parseId_None (idStr : string) :
  parseId idStr = None <-> forall n, ~ leading_integer idStr n.
Proof.
  unfold parseId; split.
  - intros H n L; rewrite (parseInt10_leading _ _ L) in H; discriminate.
  - intro H; destruct (parseInt10 idStr) as [x |] eqn:P; [| reflexivity].
    destruct (parseInt10_Some _ _ P) as [n L]; now contradiction (H n).
Qed.

Lemma parseId_leading (idStr : string) (n : Z) :
  leading_integer idStr n -> parseId idStr = Some (nearest n 1).
Proof. intro L; unfold parseId; now rewrite (parseInt10_leading _ _ L). Qed.

(** *** Looking a record up *)

Lemma findIndex_middle {A : Type} (p : A -> bool) (pre post : list A) (x : A) :
  (forall y, In y pre -> p y = false) -> p x = true ->
  findIndex p (pre ++ x :: post) = Some (List.length pre).
Proof.
  intros Hpre Hx; induction pre as [| a pre IH]; simpl.
  - now rewrite Hx.
  - rewrite (Hpre a) by now left.
    rewrite IH; [reflexivity | intros; apply Hpre; now right].
Qed.

Lemma set_nth_middle {A : Type} (x y : A) (l1 l2 : list A) :
  set_nth (List.length l1) y (l1 ++ x :: l2) = l1 ++ y :: l2.
Proof. induction l1 as [| a l1 IH]; simpl; [reflexivity | now rewrite IH]. Qed.

Lemma nth_error_middle {A : Type} (y : A) (l1 l2 : list A) :
  nth_error (l1 ++ y :: l2) (List.length l1) = Some y.
Proof. induction l1 as [| a l1 IH]; simpl; auto. Qed.

Lemma splice1_middle {A : Type} (x : A) (l1 l2 : list A) :
  splice1 (List.length l1) (l1 ++ x :: l2) = l1 ++ l2.
Proof. induction l1 as [| a l1 IH]; simpl; [reflexivity | now rewrite IH]. Qed.

(** The first record with a given id splits the collection. *)
Lemma findIndex_split {A : Type} (p : A -> bool) (l : list A) (i : nat) :
  findIndex p l = Some i ->
  exists pre x post,
    l = pre ++ x :: post /\ List.length pre = i /\ p x = true
    /\ forall y, In y pre -> p y = false.
Proof.
  revert i; induction l as [| a l IH]; simpl; intros i H; [discriminate |].
  destruct (p a) eqn:Pa.
  - injection H as <-; exists [], a, l; repeat split; auto.
    intros y [].
  - destruct (findIndex p l) as [i' |]; [| discriminate].
    injection H as <-.
    destruct (IH i' eq_refl) as (pre & x & post & -> & <- & Px & Hpre).
    exists (a :: pre), x, post; repeat split; auto.
    intros y [<- | Hy]; auto.
Qed.

Lemma has_id_false (id : number) (b : json) :
  prop b "id" <> Some (JNum id) -> has_id id b = false.
Proof.
  intro H; destruct (has_id id b) eqn:E; [| reflexivity].
  apply has_id_spec in E; contradiction.
Qed.

Lemma hasAllowed_true (u : json) :
  (exists k, In k allowed /\ prop u k <> None) ->
  existsb (includes allowed) (Object_keys u) = true.
Proof.
  intros (k & Hk & Hp).
  destruct (existsb _ _) eqn:E; [reflexivity |].
  exfalso; apply Hp; exact (proj1 (hasAllowed_false _) E k Hk).
Qed.

(** What [DELETE /books/:id] and [PUT /books/:id] do to the first record
    whose id is the parsed one. *)
Lemma run_delete_found (idStr : string) (id : number) (d : disk)
  (pre post : list json) (book : json) :
  parseId idStr = Some id -> load d = Val (pre ++ book :: post) ->
  write_fails d = false ->
  (forall b, In b pre -> prop b "id" <> Some (JNum id)) ->
  prop book "id" = Some (JNum id) ->
  run (delete_books_id idStr) d
  = (Val (Send 204), with_content d (JSON_stringify (JArr (pre ++ post)))).
Proof.
  intros P L W Hpre Hb.
  rewrite run_delete_books_id, P, L.
  rewrite (findIndex_middle (has_id id) pre post book).
  - now rewrite splice1_middle, fs_write_good.
  - intros y Hy; apply has_id_false; auto.
  - now apply has_id_spec.
Qed.

Lemma run_put_found (idStr : string) (id : number) (body : option json)
  (d : disk) (pre post : list json) (book book' : json) :
  parseId idStr = Some id -> load d = Val (pre ++ book :: post) ->
  write_fails d = false ->
  (forall b, In b pre -> prop b "id" <> Some (JNum id)) ->
  prop book "id" = Some (JNum id) ->
  (exists k, In k allowed /\ prop (or_empty body) k <> None) ->
  apply_updates book (or_empty body) = Val book' ->
  run (put_books_id idStr body) d
  = (Val (Json 200 book'),
     with_content d (JSON_stringify (JArr (pre ++ book' :: post)))).
Proof.
  intros P L W Hpre Hb HA U.
  rewrite run_put_books_id, P; cbv zeta.
  rewrite (hasAllowed_true _ HA); simpl; rewrite L.
  rewrite (findIndex_middle (has_id id) pre post book).
  - now rewrite nth_error_middle, U, set_nth_middle, fs_write_good.
  - intros y Hy; apply has_id_false; auto.
  - now apply has_id_spec.
Qed.

Lemma run_delete_absent (idStr : string) (id : number) (d : disk)
  (books : list json) :
  parseId idStr = Some id -> load d = Val books ->
  (forall b, In b books -> prop b "id" <> Some (JNum id)) ->
  run (delete_books_id idStr) d
  = (Val (Json 404 (error_body "Book not found")), d).
Proof.
  intros P L NF; rewrite run_delete_books_id, P, L.
  assert (F : findIndex (has_id id) books = None).
  { apply findIndex_None; intros b Hb; apply has_id_false; auto. }
  now rewrite F.
Qed.

Lemma run_put_absent (idStr : string) (id : number) (body : option json)
  (d : disk) (books : list json) :
  parseId idStr = Some id -> load d = Val books ->
  (exists k, In k allowed /\ prop (or_empty body) k <> None) ->
  (forall b, In b books -> prop b "id" <> Some (JNum id)) ->
  run (put_books_id idStr body) d
  = (Val (Json 404 (error_body "Book not found")), d).
Proof.
  intros P L HA NF; rewrite run_put_books_id, P; cbv zeta.
  rewrite (hasAllowed_true _ HA); simpl; rewrite L.
  assert (F : findIndex (has_id id) books = None).
  { apply findIndex_None; intros b Hb; apply has_id_false; auto. }
  now rewrite F.
Qed.

(** C8 (amended): [PUT] and [DELETE] answer 400 "Invalid id", without
    any file operation, exactly when the [:id] parameter does not start,
    after white space and an optional sign, with a decimal digit.
    Otherwise the digits are read as an integer, whatever follows them,
    the integer is rounded to a double (itself, up to 2^53), and the
    record looked up is the first one whose [id] is that number: it is
    the one deleted or updated, and when no record has that id the
    answer is 404 and the file is left as it was. *)
Theorem id_parameter_is_parsed_then_looked_up (idStr : string) :
  ((forall n, ~ leading_integer idStr n) <->
   (forall body,
       put_books_id idStr body = Ret (Json 400 (error_body "Invalid id")))
   /\ delete_books_id idStr = Ret (Json 400 (error_body "Invalid id")))
  /\ (forall n,
        leading_integer idStr n ->
        let id := nearest n 1 in
        (Z.abs n <= 2 ^ 53 -> id = Integer n)
        /\ (forall d books,
              load d = Val books ->
              (forall b, In b books -> prop b "id" <> Some (JNum id)) ->
              run (delete_books_id idStr) d
              = (Val (Json 404 (error_body "Book not found")), d)
              /\ forall body,
                   (exists k, In k allowed /\ prop (or_empty body) k <> None) ->
                   run (put_books_id idStr body) d
                   = (Val (Json 404 (error_body "Book not found")), d))
        /\ (forall d pre book post,
              load d = Val (pre ++ book :: post) -> write_fails d = false ->
              (forall b, In b pre -> prop b "id" <> Some (JNum id)) ->
              prop book "id" = Some (JNum id) ->
              run (delete_books_id idStr) d
              = (Val (Send 204),
                 with_content d (JSON_stringify (JArr (pre ++ post))))
              /\ forall body,
                   (exists k, In k allowed /\ prop (or_empty body) k <> None) ->
                   printable (prop (or_empty body) "title") ->
                   printable (prop (or_empty body) "author") ->
                   exists book',
                     run (put_books_id idStr body) d
                     = (Val (Json 200 book'),
                        with_content d
                          (JSON_stringify (JArr (pre ++ book' :: post))))
                     /\ prop book' "id" = Some (JNum id))).
Proof.
  split.
  - rewrite <- parseId_None; split.
    + intro P; unfold put_books_id, delete_books_id; rewrite P; auto.
    + intros [_ H]; unfold delete_books_id in H.
      destruct (parseId idStr); [discriminate H | reflexivity].
  - intros n L id; pose proof (parseId_leading _ _ L) as P; fold id in P.
    split; [apply nearest_integer | split].
    + intros d books Ld NF; split;
        [now apply (run_delete_absent _ id _ books) |].
      intros body HA; now apply (run_put_absent _ id _ _ books).
    + intros d pre book post Ld W Hpre Hb; split;
        [now apply (run_delete_found _ id _ _ _ book) |].
      intros body HA Pt Pa.
      destruct (apply_updates_printable book _ Pt Pa) as [book' U].
      exists book'; split; [now apply (run_put_found _ id _ _ _ _ book) |].
      assert (O : exists kvs, book = JObj kvs)
        by (destruct book; simpl in Hb; try discriminate; eauto).
      destruct O as [kvs ->].
      destruct (apply_updates_Val _ _ _ U) as (_ & _ & _ & U4).
      rewrite U4; [exact Hb | right; simpl; intuition discriminate].
Qed.

(** *** The id of a new record *)

Lemma fold_max_init (l : list Z) (m n : Z) :
  fold_right Z.max (Z.max m n) l = Z.max n (fold_right Z.max m l).
Proof. induction l as [| a l IH]; simpl; [lia | rewrite IH; lia]. Qed.

Lemma safe_integer (x : number) :
  safe x -> exists n, x = Integer n /\ Z.abs n < 2 ^ 53.
Proof. destruct x; simpl; [eauto | contradiction | contradiction]. Qed.

Lemma numeric_ids_cons (b : json) (rest : list json) :
  numeric_ids (b :: rest)
  = match prop b "id" with
    | Some (JNum x) => [x]
    | _ => []
    end ++ numeric_ids rest.
Proof. reflexivity. Qed.

(** The callback of [reduce] computes the largest of 0 and the numeric
    ids, provided no element of the array is [null] and the ids are safe
    integers. *)
Lemma reduce_max_step (books : list json) (m : Z) :
  ~ In JNull books -> Forall safe (numeric_ids books) ->
  reduce max_step books (Integer m)
  = Val (Integer (fold_right Z.max m (map numerator (numeric_ids books)))).
Proof.
  revert m; induction books as [| b rest IH]; intros m NN S; [reflexivity |].
  assert (Hb : b <> JNull) by (intros ->; apply NN; now left).
  assert (Hr : ~ In JNull rest) by (intro H; apply NN; now right).
  rewrite numeric_ids_cons in *; apply Forall_app in S as [Sb Sr].
  cbn [reduce]; unfold max_step, get.
  destruct b as [| x | n | s | xs | kvs]; try congruence; simpl;
    try (now apply IH).
  simpl in Sb.
  destruct (assoc "id" kvs) as [[| x | n | s | xs | kvs'] |]; simpl;
    try (now apply IH).
  inversion Sb as [| ? ? Sn _]; subst.
  destruct (safe_integer _ Sn) as (k & -> & _).
  rewrite gt_integer; simpl.
  destruct (Z.ltb_spec m k).
  - rewrite IH by assumption; do 2 f_equal.
    rewrite <- (Z.max_r m k) at 1 by lia. apply fold_max_init.
  - rewrite IH by assumption; do 2 f_equal.
    rewrite <- (Z.max_l m k) at 1 by lia. apply fold_max_init.
Qed.


(** On a [null] element the callback throws: [POST /books] answers 500. *)
Lemma reduce_max_step_null (books rest : list json) (m : number) :
  ~ In JNull books ->
  exists e, reduce max_step (books ++ JNull :: rest) m = Exn e.
Proof.
  revert m; induction books as [| b l IH]; intros m NN; simpl.
  - eexists; reflexivity.
  - assert (Hb : b <> JNull) by (intros ->; apply NN; now left).
    assert (Hr : ~ In JNull l) by (intro H; apply NN; now right).
    destruct (max_step m b) as [acc | e] eqn:E; [now apply IH |].
    destruct b; try congruence; unfold max_step in E; simpl in E;
      try discriminate.
    destruct (assoc "id" kvs) as [[] |]; discriminate.
Qed.

Lemma largest_id_app (l1 l2 : list json) :
  largest_id (l1 ++ l2) = Z.max (largest_id l1) (largest_id l2).
Proof.
  unfold largest_id, numeric_ids; rewrite flat_map_app, map_app.
  induction (map numerator (flat_map _ l1)) as [| a l IH]; simpl.
  - assert (H : forall l : list Z, 0 <= fold_right Z.max 0 l)
      by (induction l; simpl; lia).
    specialize (H (map numerator
                     (flat_map (fun b => match prop b "id" with
                                         | Some (JNum x) => [x]
                                         | _ => []
                                         end) l2))).
    lia.
  - rewrite IH; lia.
Qed.

Lemma largest_id_nonneg (l : list json) : 0 <= largest_id l.
Proof.
  unfold largest_id; induction (map numerator (numeric_ids l)); simpl; lia.
Qed.

Lemma largest_id_safe (l : list json) :
  Forall safe (numeric_ids l) -> largest_id l < 2 ^ 53.
Proof.
  unfold largest_id; induction (numeric_ids l) as [| x ids IH]; intro S.
  - simpl; lia.
  - inversion S as [| ? ? Sx Sids]; subst.
    destruct (safe_integer _ Sx) as (n & -> & B).
    specialize (IH Sids); simpl; lia.
Qed.


Lemma newBook_book (m : Z) (title author : string) (body : option json) :
  Z.abs m < 2 ^ 53 ->
  newBook (Integer m) title author (prop (or_empty body) "available")
  = book (m + 1) title author (stored_available body).
Proof.
  intro B; unfold newBook, book, stored_available; now rewrite add1_safe.
Qed.

(** A successful [POST /books]. *)
Lemma run_post_books_ok (body : option json) (d : disk) (books : list json) :
  creatable body ->
  load d = Val books -> ~ In JNull books ->
  Forall safe (numeric_ids books) -> write_fails d = false ->
  let new := made (largest_id books + 1) body in
  run (post_books body) d
  = (Val (Json 201 new),
     with_content d (JSON_stringify (JArr (books ++ [new])))).
Proof.
  intros ((T & A) & Pt & Pa) L NN S W new.
  rewrite run_post_books; cbv zeta.
  rewrite T, A, L; simpl.
  rewrite reduce_max_step by assumption; fold (largest_id books).
  rewrite (printable_text _ Pt), (printable_text _ Pa).
  rewrite newBook_book.
  - now rewrite fs_write_good.
  - pose proof (largest_id_nonneg books); pose proof (largest_id_safe _ S).
    lia.
Qed.


(** *** Interleaving and serial execution *)

Lemma advance_n_settled {A : Type} (n : nat) (m : io A) (d : disk) :
  settled m = true -> advance_n n m d = (m, d).
Proof.
  intro S; induction n as [| n IH]; simpl; [reflexivity |].
  destruct m; try discriminate; exact IH.
Qed.

Lemma advance_n_run {A : Type} (n : nat) (m : io A) (d : disk) :
  awaits_at_most n m ->
  advance_n n m d = (lift (fst (run m d)), snd (run m d)).
Proof.
  revert m d; induction n as [| n IH]; intros m d B.
  - destruct m; simpl in *; try contradiction; reflexivity.
  - destruct m as [a | e | k | data k]; simpl in *.
    + now apply advance_n_settled.
    + now apply advance_n_settled.
    + now apply IH.
    + destruct (fs_write data d) as [r d']; now apply IH.
Qed.

Lemma awaits_mono {A : Type} (n n' : nat) (m : io A) :
  awaits_at_most n m -> (n <= n')%nat -> awaits_at_most n' m.
Proof.
  revert n n'; induction m as [a | e | k IH | data k IH]; intros n n' B L.
  - exact I.
  - exact I.
  - destruct n as [| n]; [contradiction B |].
    destruct n' as [| n']; [lia |].
    intro r; apply (IH r n); [apply B | lia].
  - destruct n as [| n]; [contradiction B |].
    destruct n' as [| n']; [lia |].
    intro r; apply (IH r n); [apply B | lia].
Qed.

Lemma awaits_bind {A B : Type} (n k : nat) (m : io A) (f : A -> io B) :
  awaits_at_most n m -> (forall a, awaits_at_most k (f a)) ->
  awaits_at_most (n + k) (bind m f).
Proof.
  revert n; induction m as [a | e | c IH | data c IH]; simpl; intros n Hm Hf.
  - apply (awaits_mono k); [apply Hf | lia].
  - exact I.
  - destruct n as [| n]; [contradiction |]; simpl; intro r; now apply IH.
  - destruct n as [| n]; [contradiction |]; simpl; intro r; now apply IH.
Qed.

Lemma awaits_try_catch {A : Type} (n : nat) (m : io A) (h : exn -> io A) :
  awaits_at_most n m -> (forall e, awaits_at_most 0 (h e)) ->
  awaits_at_most n (try_catch m h).
Proof.
  revert n; induction m as [a | e | c IH | data c IH]; simpl; intros n B F.
  - exact I.
  - apply (awaits_mono 0); [apply F | lia].
  - destruct n as [| n]; [contradiction |]; intro r; now apply IH.
  - destruct n as [| n]; [contradiction |]; intro r; now apply IH.
Qed.

Lemma awaits_lift {A : Type} (r : outcome A) : awaits_at_most 0 (lift r).
Proof. destruct r; exact I. Qed.

Lemma awaits_readBooks : awaits_at_most 1 readBooks.
Proof.
  unfold readBooks; apply awaits_try_catch.
  - apply (awaits_bind 1 0); [intro r; apply awaits_lift |].
    intro data; destruct (JSON_parse data); exact I.
  - intro e; destruct (code_is e "ENOENT"); exact I.
Qed.

Lemma awaits_writeBooks (books : list json) :
  awaits_at_most 1 (writeBooks books).
Proof.
  unfold writeBooks; apply awaits_try_catch; [| intro e; exact I].
  intro r; apply awaits_lift.
Qed.

(** Every handler awaits at most one read and one write. *)
Lemma awaits_post_books (body : option json) :
  awaits_at_most 2 (post_books body).
Proof.
  unfold post_books; apply awaits_try_catch; [| intro e; exact I]; cbv zeta.
  destruct (negb _ || negb _); [exact I |].
  apply (awaits_bind 1 1); [apply awaits_readBooks |]; intro books.
  apply (awaits_bind 0 1); [apply awaits_lift |]; intro maxId.
  apply (awaits_bind 0 1); [apply awaits_lift |]; intro title.
  apply (awaits_bind 0 1); [apply awaits_lift |]; intro author.
  apply (awaits_bind 1 0); [apply awaits_writeBooks |]; intro u; exact I.
Qed.

Lemma awaits_put_books_id (idStr : string) (body : option json) :
  awaits_at_most 2 (put_books_id idStr body).
Proof.
  unfold put_books_id; apply awaits_try_catch; [| intro e; exact I].
  destruct (parseId idStr) as [id |]; [| exact I]; cbv zeta.
  destruct (negb _); [exact I |].
  apply (awaits_bind 1 1); [apply awaits_readBooks |]; intro books.
  destruct (findIndex (has_id id) books) as [idx |]; [| exact I].
  destruct (nth_error books idx) as [book |]; [| exact I].
  apply (awaits_bind 0 1); [apply awaits_lift |]; intro book'.
  apply (awaits_bind 1 0); [apply awaits_writeBooks |]; intro u; exact I.
Qed.

Lemma awaits_delete_books_id (idStr : string) :
  awaits_at_most 2 (delete_books_id idStr).
Proof.
  unfold delete_books_id; apply awaits_try_catch; [| intro e; exact I].
  destruct (parseId idStr) as [id |]; [| exact I].
  apply (awaits_bind 1 1); [apply awaits_readBooks |]; intro books.
  destruct (findIndex (has_id id) books) as [idx |]; [| exact I].
  apply (awaits_bind 1 0); [apply awaits_writeBooks |]; intro u; exact I.
Qed.

Lemma set_nth_id {A : Type} (i : nat) (x : A) (l : list A) :
  nth_error l i = Some x -> set_nth i x l = l.
Proof.
  revert i; induction l as [| a l IH]; intros [| i]; simpl; try discriminate.
  - now intros [= ->].
  - intro H; now rewrite IH.
Qed.

Lemma set_nth_twice {A : Type} (i : nat) (x y : A) (l : list A) :
  set_nth i x (set_nth i y l) = set_nth i x l.
Proof.
  revert i; induction l as [| a l IH]; intros [| i]; simpl; auto.
  now rewrite IH.
Qed.

Lemma schedule_app {A : Type} (o1 o2 : list nat) (pool : list (io A))
  (d : disk) :
  schedule (o1 ++ o2) pool d =
  schedule o2 (fst (schedule o1 pool d)) (snd (schedule o1 pool d)).
Proof.
  revert pool d; induction o1 as [| i o1 IH]; intros pool d; simpl; auto.
  destruct (step_at i pool d) as [pool' d']; apply IH.
Qed.

Lemma schedule_repeat {A : Type} (i n : nat) (pool : list (io A)) (m : io A)
  (d : disk) :
  nth_error pool i = Some m ->
  schedule (repeat i n) pool d =
  (set_nth i (fst (advance_n n m d)) pool, snd (advance_n n m d)).
Proof.
  revert pool m d; induction n as [| n IH]; intros pool m d N; simpl.
  - now rewrite (set_nth_id _ _ _ N).
  - unfold step_at; rewrite N.
    destruct (advance m d) as [m' d'].
    rewrite (IH _ m') by (eapply set_nth_same; eassumption).
    now rewrite set_nth_twice.
Qed.

(** Under the serial order the requests run one after the other. *)
Lemma schedule_serial {A : Type} (n : nat) (pending done : list (io A))
  (d : disk) :
  Forall (awaits_at_most n) pending ->
  schedule (flat_map (fun i => repeat i n)
              (seq (List.length done) (List.length pending)))
           (done ++ pending) d =
  ((done ++ map lift (fst (run_all pending d)))%list,
   snd (run_all pending d)).
Proof.
  revert done d; induction pending as [| m rest IH]; intros done d B; simpl.
  - reflexivity.
  - inversion B as [| ? ? Bm Brest]; subst.
    rewrite schedule_app, (schedule_repeat _ _ _ m) by apply nth_error_middle.
    rewrite (advance_n_run _ _ _ Bm), set_nth_middle; simpl.
    destruct (run m d) as [r d1]; simpl.
    specialize (IH (done ++ [lift r])%list d1 Brest).
    rewrite List.length_app in IH; simpl in IH.
    replace (List.length done + 1)%nat with (S (List.length done)) in IH by lia.
    rewrite <- List.app_assoc in IH; simpl in IH; rewrite IH.
    destruct (run_all rest d1) as [rs d2]; simpl.
    now rewrite <- List.app_assoc.
Qed.

(** The first step of a handler is its read. *)
Lemma advance_after_read {A : Type} (f : list json -> io A)
  (h : exn -> io A) (d : disk) :
  advance (try_catch (bind readBooks f) h) d
  = (try_catch (bind (lift (load d)) f) h, d).
Proof.
  rewrite load_eq; unfold readBooks, readFile.
  cbn [bind try_catch advance]; f_equal.
  destruct (fs_read d) as [data | e]; cbn [lift bind try_catch].
  - destruct (JSON_parse data) as [[] |]; reflexivity.
  - destruct (code_is e "ENOENT"); reflexivity.
Qed.

(** A creation that is accepted awaits the read, then the write of the
    collection it read with its record appended. *)
Lemma post_books_steps (body : option json) (d : disk) (books : list json) :
  creatable body -> load d = Val books -> ~ In JNull books ->
  Forall safe (numeric_ids books) ->
  let new := made (largest_id books + 1) body in
  exists k,
    advance (post_books body) d
    = (WriteFile (JSON_stringify (JArr (books ++ [new]))) k, d)
    /\ k (Val tt) = Ret (Json 201 new).
Proof.
  intros ((T & A) & Pt & Pa) L NN S new.
  unfold post_books; cbv zeta; rewrite T, A; cbn [negb orb].
  rewrite advance_after_read, L; cbn [lift bind].
  rewrite reduce_max_step by assumption; fold (largest_id books).
  rewrite (printable_text _ Pt), (printable_text _ Pa); cbn [lift bind].
  rewrite newBook_book.
  2: { pose proof (largest_id_nonneg books).
       pose proof (largest_id_safe _ S); lia. }
  fold (made (largest_id books + 1) body); fold new.
  cbn [lift bind writeBooks writeFile try_catch].
  eexists; split; reflexivity.
Qed.

(** Two creations whose reads both precede their writes: both are given
    the same id, and the record of the first is lost. *)
Lemma interleaved_creates (b1 b2 : option json) (d : disk)
  (books : list json) :
  creatable b1 -> creatable b2 -> good_disk d ->
  load d = Val books -> ~ In JNull books ->
  Forall safe (numeric_ids books) ->
  let id := largest_id books + 1 in
  schedule [0; 1; 0; 1]%nat [post_books b1; post_books b2] d
  = ([Ret (Json 201 (made id b1)); Ret (Json 201 (made id b2))],
     with_content d (JSON_stringify (JArr (books ++ [made id b2])))).
Proof.
  intros A1 A2 [R W] L NN S id.
  destruct (post_books_steps b1 d books A1 L NN S) as (k1 & E1 & K1).
  destruct (post_books_steps b2 d books A2 L NN S) as (k2 & E2 & K2).
  cbn [schedule step_at nth_error set_nth].
  rewrite E1; cbn [schedule step_at nth_error set_nth].
  rewrite E2; cbn [schedule step_at nth_error set_nth advance].
  rewrite fs_write_good by assumption.
  cbn [schedule step_at nth_error set_nth advance].
  rewrite fs_write_good by assumption.
  rewrite K1, K2; reflexivity.
Qed.

(** *** Plain values *)

Lemma wf_arr (xs : list json) : wf (JArr xs) <-> Forall wf xs.
Proof.
  simpl; induction xs as [| x xs IH]; simpl.
  - split; auto.
  - rewrite IH; split; [intros [H1 H2]; now constructor |].
    intro H; inversion H; auto.
Qed.

Lemma wf_obj (kvs : list (string * json)) :
  wf (JObj kvs)
  <-> (NoDup (keys kvs) /\ ordered (keys kvs) = true)
      /\ Forall (fun kv => wf (snd kv)) kvs.
Proof.
  simpl; apply and_iff_compat_l.
  induction kvs as [| kv kvs IH]; simpl.
  - split; auto.
  - rewrite IH; split; [intros [H1 H2]; now constructor |].
    intro H; inversion H; auto.
Qed.

Lemma safe_numbers_arr (xs : list json) :
  safe_numbers (JArr xs) <-> Forall safe_numbers xs.
Proof.
  simpl; induction xs as [| x xs IH]; simpl.
  - split; auto.
  - rewrite IH; split; [intros [H1 H2]; now constructor |].
    intro H; inversion H; auto.
Qed.

Lemma safe_numbers_obj (kvs : list (string * json)) :
  safe_numbers (JObj kvs) <-> Forall (fun kv => safe_numbers (snd kv)) kvs.
Proof.
  simpl; induction kvs as [| kv kvs IH]; simpl.
  - split; auto.
  - rewrite IH; split; [intros [H1 H2]; now constructor |].
    intro H; inversion H; auto.
Qed.

Lemma plain_arr (xs : list json) : plain (JArr xs) <-> Forall plain xs.
Proof.
  unfold plain; rewrite wf_arr, safe_numbers_arr.
  rewrite !Forall_forall; split.
  - intros [H1 H2] x Hx; auto.
  - intro H; split; intros x Hx; now apply H.
Qed.

Lemma plain_obj (kvs : list (string * json)) :
  plain (JObj kvs)
  <-> (NoDup (keys kvs) /\ ordered (keys kvs) = true)
      /\ Forall (fun kv => plain (snd kv)) kvs.
Proof.
  unfold plain; rewrite wf_obj, safe_numbers_obj.
  rewrite !Forall_forall; split.
  - intros [[N H1] H2]; split; auto.
  - intros [N H]; repeat split; try apply N; intros x Hx; now apply H.
Qed.

Lemma plain_book (id : Z) (title author : string) (available : bool) :
  Z.abs id < 2 ^ 53 -> plain (book id title author available).
Proof.
  intro B; apply plain_obj; split; [split |].
  - simpl; repeat constructor; simpl; intuition discriminate.
  - reflexivity.
  - repeat constructor; simpl; auto.
Qed.


(** The numeric ids of plain records are safe integers. *)
Lemma plain_numeric_ids (books : list json) :
  Forall plain books -> Forall safe (numeric_ids books).
Proof.
  induction 1 as [| b rest Hb _ IH]; [constructor |].
  rewrite numeric_ids_cons; apply Forall_app; split; [| exact IH].
  destruct b as [| x | n | s | xs | kvs]; cbn [prop]; try constructor.
  apply plain_obj in Hb as [_ Hb].
  induction kvs as [| [k v] kvs IHk]; cbn [assoc]; [constructor |].
  inversion Hb as [| ? ? Hv Hkvs]; subst.
  destruct (String.eqb "id" k); [| auto].
  destruct v; try constructor; [apply Hv | constructor].
Qed.

Lemma largest_id_book (id : Z) (t a : string) (v : bool) :
  0 <= id -> largest_id [book id t a v] = id.
Proof. unfold largest_id; simpl; lia. Qed.

Lemma created_length (m : Z) (bodies : list (option json)) :
  List.length (created m bodies) = List.length bodies.
Proof.
  revert m; induction bodies as [| b l IH]; intro m; simpl; auto.
Qed.

Lemma created_ids (m : Z) (bodies : list (option json)) :
  map id_of (created m bodies) =
  map (fun i => Some (JNum (Integer (m + Z.of_nat i))))
    (seq 1 (List.length bodies)).
Proof.
  revert m; induction bodies as [| b l IH]; intro m; simpl; [reflexivity |].
  f_equal; try (unfold id_of; simpl; do 3 f_equal; lia).
  rewrite IH, <- (seq_shift (List.length l) 1), map_map.
  apply map_ext; intro i; do 3 f_equal; lia.
Qed.

Section Lawful.

Hypothesis RT : round_trips codec.

(** What [writeBooks] wrote is what [readBooks] reads next. *)
Lemma load_written (d : disk) (books : list json) :
  read_fails d = false -> Forall plain books ->
  load (with_content d (JSON_stringify (JArr books))) = Val books.
Proof.
  intros R W; rewrite load_eq; unfold fs_read, with_content; simpl.
  rewrite R, RT by now apply plain_arr.
  reflexivity.
Qed.

(** Creations served one after the other. *)
Lemma run_all_creates (bodies : list (option json)) (d : disk)
  (sofar : list json) :
  Forall creatable bodies -> good_disk d ->
  load d = Val sofar -> Forall plain sofar -> ~ In JNull sofar ->
  largest_id sofar + Z.of_nat (List.length bodies) < 2 ^ 53 ->
  let new := created (largest_id sofar) bodies in
  fst (run_all (map post_books bodies) d)
  = map (fun b => Val (Json 201 b)) new
  /\ load (snd (run_all (map post_books bodies) d)) = Val (sofar ++ new)%list.
Proof.
  revert d sofar; induction bodies as [| body rest IH];
    intros d sofar A G L W NN B; simpl.
  - now rewrite List.app_nil_r.
  - inversion A as [| ? ? Ab Arest]; subst.
    destruct G as [R Wf].
    pose proof (largest_id_nonneg sofar) as L0.
    cbn [List.length] in B; rewrite Nat2Z.inj_succ in B.
    rewrite (run_post_books_ok body d sofar Ab L NN
               (plain_numeric_ids _ W) Wf).
    set (new := made (largest_id sofar + 1) body).
    set (d1 := with_content d _).
    assert (W1 : Forall plain (sofar ++ [new])).
    { apply Forall_app; split; [assumption |].
      constructor; [apply plain_book; lia | constructor]. }
    assert (L1 : load d1 = Val (sofar ++ [new])) by now apply load_written.
    assert (N1 : ~ In JNull (sofar ++ [new])).
    { intro H; apply in_app_or in H as [H | [H | []]]; [tauto | discriminate]. }
    assert (M1 : largest_id (sofar ++ [new]) = largest_id sofar + 1).
    { rewrite largest_id_app; unfold new, made.
      rewrite largest_id_book by lia; lia. }
    specialize (IH d1 (sofar ++ [new])%list Arest (conj R Wf) L1 W1 N1).
    rewrite M1 in IH; cbv zeta in IH.
    destruct IH as [IH1 IH2]; [lia |].
    destruct (run_all (map post_books rest) d1) as [rs d2]; simpl in *.
    split; [now rewrite IH1 |].
    now rewrite IH2, <- List.app_assoc.
Qed.

(** A deletion and a creation served one after the other, in either
    order. *)
Lemma run_delete_then_create (idStr : string) (id : number)
  (body : option json) (d : disk) (pre post : list json) (victim : json) :
  creatable body -> good_disk d ->
  load d = Val (pre ++ victim :: post) ->
  Forall plain (pre ++ victim :: post) -> ~ In JNull (pre ++ victim :: post) ->
  parseId idStr = Some id ->
  (forall b, In b pre -> prop b "id" <> Some (JNum id)) ->
  prop victim "id" = Some (JNum id) ->
  let kept := pre ++ post in
  let new := made (largest_id kept + 1) body in
  let d1 := with_content d (JSON_stringify (JArr kept)) in
  run (delete_books_id idStr) d = (Val (Send 204), d1)
  /\ load d1 = Val kept
  /\ run (post_books body) d1
     = (Val (Json 201 new),
        with_content d1 (JSON_stringify (JArr (kept ++ [new])))).
Proof.
  intros C [R W] L P NN Pid Hpre Hv kept new d1.
  assert (Pk : Forall plain kept).
  { apply Forall_app in P as [P1 P2]; inversion P2; subst.
    apply Forall_app; auto. }
  assert (Nk : ~ In JNull kept).
  { intro H; apply NN; apply in_app_or in H as [H | H];
      apply in_or_app; [now left | right; now right]. }
  split; [| split].
  - now apply (run_delete_found _ id _ _ _ victim).
  - now apply load_written.
  - apply run_post_books_ok; auto.
    + now apply load_written.
    + now apply plain_numeric_ids.
Qed.

Lemma largest_id_without (pre post : list json) (x : json) :
  largest_id (pre ++ post) <= largest_id (pre ++ x :: post).
Proof.
  change (x :: post) with ([x] ++ post).
  rewrite !largest_id_app.
  pose proof (largest_id_nonneg [x]); lia.
Qed.

Lemma run_create_then_delete (idStr : string) (id : number)
  (body : option json) (d : disk) (pre post : list json) (victim : json) :
  creatable body -> good_disk d ->
  load d = Val (pre ++ victim :: post) ->
  Forall plain (pre ++ victim :: post) -> ~ In JNull (pre ++ victim :: post) ->
  parseId idStr = Some id ->
  (forall b, In b pre -> prop b "id" <> Some (JNum id)) ->
  prop victim "id" = Some (JNum id) ->
  largest_id (pre ++ victim :: post) + 1 < 2 ^ 53 ->
  let new := made (largest_id (pre ++ victim :: post) + 1) body in
  let d1 :=
    with_content d
      (JSON_stringify (JArr ((pre ++ victim :: post) ++ [new]))) in
  run (post_books body) d = (Val (Json 201 new), d1)
  /\ run (delete_books_id idStr) d1
     = (Val (Send 204),
        with_content d1 (JSON_stringify (JArr (pre ++ post ++ [new])))).
Proof.
  intros C [R W] L P NN Pid Hpre Hv B new d1.
  pose proof (largest_id_nonneg (pre ++ victim :: post)) as L0.
  split.
  - apply run_post_books_ok; auto.
    now apply plain_numeric_ids.
  - apply (run_delete_found _ id _ _ _ victim); auto.
    subst d1; rewrite <- List.app_assoc; cbn [app].
    apply load_written; [exact R |].
    apply Forall_app in P as [P1 P2]; inversion P2; subst.
    apply Forall_app; split; [assumption |].
    constructor; [assumption |].
    apply Forall_app; split; [assumption |].
    constructor; [apply plain_book; lia | constructor].
Qed.

(** C3 (amended): the handlers do not serialize concurrent requests:
    two creations whose reads both precede their writes are given the
    same id and the record of the first is lost.  When [N] creations
    that can be stored are served against an empty collection one after
    the other, each one running from its read to its write before the
    next starts, every one answers 201 and the final collection holds
    exactly [N] records with ids 1..N, without duplicates or gaps; and
    when a deletion and a creation are served one after the other, in
    either order, the final collection is the one read first without the
    deleted record and with the created record at its end. *)
Theorem serial_creates_assign_ids_1_to_N
  (bodies : list (option json)) (d : disk) :
  Forall creatable bodies -> good_disk d -> load d = Val [] ->
  let N := List.length bodies in
  Z.of_nat N < 2 ^ 53 ->
  let books := created 0 bodies in
  let final := schedule (serial 2 N) (map post_books bodies) d in
  fst final = map (fun b => Ret (Json 201 b)) books
  /\ load (snd final) = Val books
  /\ List.length books = N
  /\ map id_of books
     = map (fun i => Some (JNum (Integer (Z.of_nat i)))) (seq 1 N)
  /\ NoDup (map id_of books)
  /\ (forall b1 b2 d' have,
        creatable b1 -> creatable b2 -> good_disk d' ->
        load d' = Val have -> ~ In JNull have ->
        Forall safe (numeric_ids have) ->
        let id := largest_id have + 1 in
        schedule [0; 1; 0; 1]%nat [post_books b1; post_books b2] d'
        = ([Ret (Json 201 (made id b1)); Ret (Json 201 (made id b2))],
           with_content d' (JSON_stringify (JArr (have ++ [made id b2])))))
  /\ (forall idStr id body d' pre victim post,
        creatable body -> good_disk d' ->
        load d' = Val (pre ++ victim :: post) ->
        Forall plain (pre ++ victim :: post) ->
        ~ In JNull (pre ++ victim :: post) ->
        parseId idStr = Some id ->
        (forall b, In b pre -> prop b "id" <> Some (JNum id)) ->
        prop victim "id" = Some (JNum id) ->
        largest_id (pre ++ victim :: post) + 1 < 2 ^ 53 ->
        let kept := pre ++ post in
        (let new := made (largest_id kept + 1) body in
         let final :=
           schedule (serial 2 2)
             [delete_books_id idStr; post_books body] d' in
         fst final = [Ret (Send 204); Ret (Json 201 new)]
         /\ load (snd final) = Val (kept ++ [new]))
        /\ (let new := made (largest_id (pre ++ victim :: post) + 1) body in
            let final :=
              schedule (serial 2 2)
                [post_books body; delete_books_id idStr] d' in
            fst final = [Ret (Json 201 new); Ret (Send 204)]
            /\ load (snd final) = Val (kept ++ [new]))).
Proof.
  intros A G L N NB books final.
  assert (Two : forall (pair : list (io response)) (d' : disk),
             Forall (awaits_at_most 2) pair -> List.length pair = 2%nat ->
             schedule (serial 2 2) pair d'
             = (map lift (fst (run_all pair d')), snd (run_all pair d'))).
  { intros pair d' B Len.
    pose proof (schedule_serial 2 pair [] d' B) as S.
    cbn [List.length app] in S; rewrite Len in S; exact S. }
  assert (B : Forall (awaits_at_most 2) (map post_books bodies)).
  { apply Forall_map, Forall_forall; intros; apply awaits_post_books. }
  pose proof (schedule_serial 2 (map post_books bodies) [] d B) as S.
  cbn [List.length app] in S; rewrite length_map in S.
  destruct (run_all_creates bodies d [] A G L (Forall_nil _) (fun H => H))
    as [R1 R2].
  { change (largest_id []) with 0; fold N; lia. }
  change (largest_id []) with 0 in R1, R2; simpl in R2.
  change (flat_map (fun i => repeat i 2) (seq 0 (List.length bodies)))
    with (serial 2 (List.length bodies)) in S.
  subst final N; rewrite S; cbn [fst snd app].
  assert (I : map id_of books
              = map (fun i => Some (JNum (Integer (Z.of_nat i))))
                  (seq 1 (List.length bodies))).
  { unfold books; rewrite created_ids.
    apply map_ext; intro i; reflexivity. }
  split; [rewrite R1, map_map; reflexivity |].
  split; [exact R2 |].
  split; [apply created_length |].
  split; [exact I |].
  split.
  { rewrite I; apply NoDup_map_NoDup_ForallPairs; [| apply seq_NoDup].
    intros i j _ _ [= H]; lia. }
  split; [intros b1 b2 d' have; apply interleaved_creates |].
  intros idStr id body d' pre victim post C G' L' P NN Pid Hpre Hv Bd.
  set (kept := pre ++ post).
  pose proof (largest_id_nonneg kept) as K0.
  pose proof (largest_id_without pre post victim) as K1; fold kept in K1.
  assert (Pk : Forall plain kept).
  { apply Forall_app in P as [P1 P2]; inversion P2; subst.
    apply Forall_app; auto. }
  split.
  - set (new := made (largest_id kept + 1) body); rewrite Two.
    2: { repeat constructor;
           [apply awaits_delete_books_id | apply awaits_post_books]. }
    2: reflexivity.
    destruct (run_delete_then_create idStr id body d' pre post victim
                C G' L' P NN Pid Hpre Hv) as (E1 & L1 & E2).
    fold kept in E1, L1, E2; fold new in E2.
    cbn [run_all]; rewrite E1, E2; cbn [fst snd map lift].
    split; [reflexivity |].
    destruct G' as [R W]; apply load_written; [exact R |].
    apply Forall_app; split; [assumption |].
    constructor; [apply plain_book; lia | constructor].
  - set (new := made (largest_id (pre ++ victim :: post) + 1) body).
    rewrite Two.
    2: { repeat constructor;
           [apply awaits_post_books | apply awaits_delete_books_id]. }
    2: reflexivity.
    destruct (run_create_then_delete idStr id body d' pre post victim
                C G' L' P NN Pid Hpre Hv Bd) as (E1 & E2).
    fold new in E1, E2.
    cbn [run_all]; rewrite E1, E2; cbn [fst snd map lift].
    split; [reflexivity |].
    pose proof (largest_id_nonneg (pre ++ victim :: post)) as L0.
    destruct G' as [R W].
    unfold kept; rewrite <- (List.app_assoc pre post [new]).
    apply load_written; [exact R |].
    apply Forall_app in P as [P1 P2]; inversion P2; subst.
    apply Forall_app; split; [assumption |].
    apply Forall_app; split; [assumption |].
    constructor; [apply plain_book; lia | constructor].
Qed.


End Lawful.

End Facts.

(* ================================================================== *)
(** ** The reference codec obeys the laws *)

Local Open Scope string_scope.

Module RefFacts.

Import Ref.

Lemma append_assoc (a b c : string) : (a ++ b) ++ c = a ++ (b ++ c).
Proof. induction a as [| x a IH]; simpl; [reflexivity | now rewrite IH]. Qed.

Lemma append_nil_r (a : string) : a ++ "" = a.
Proof. induction a as [| x a IH]; simpl; [reflexivity | now rewrite IH]. Qed.

Lemma length_append (a b : string) :
  String.length (a ++ b) = (String.length a + String.length b)%nat.
Proof. induction a as [| x a IH]; simpl; [reflexivity | now rewrite IH]. Qed.

Lemma skip_ws_blank (ws s : string) :
  blank ws = true -> skip_ws (ws ++ s) = skip_ws s.
Proof.
  induction ws as [| a ws IH]; simpl; [reflexivity |].
  intro H; apply andb_prop in H as [Ha Hws]; rewrite Ha; auto.
Qed.

Lemma blank_append (a b : string) :
  blank a = true -> blank b = true -> blank (a ++ b) = true.
Proof.
  induction a as [| x a IH]; simpl; [auto |].
  intros H Hb; apply andb_prop in H as [Hx Ha]; rewrite Hx; simpl; auto.
Qed.

(** *** String literals *)

Lemma parse_chars_escape (s rest : string) :
  parse_chars (escape_all s ++ String dquote rest) = Some (s, rest).
Proof.
  induction s as [| a s IH]; [reflexivity |].
  change (escape_all (String a s)) with (escape a ++ escape_all s).
  rewrite append_assoc.
  change dquote with (Ascii false true false false false true false false)
    in *.
  destruct a as [[] [] [] [] [] [] [] []];
    (cbn -[parse_chars escape_all append];
     cbn [append];
     simpl parse_chars;
     rewrite IH; reflexivity).
Qed.

(** *** Number literals *)

Lemma is_digit_byte (a : ascii) :
  is_digit a = true <-> (48 <= byte a <= 57)%N.
Proof.
  unfold is_digit; rewrite andb_true_iff, !N.leb_le; tauto.
Qed.

Lemma split_sign_digit (a : ascii) (r : string) :
  is_digit a = true -> split_sign (String a r) = (false, String a r).
Proof.
  intro D; apply is_digit_byte in D; unfold split_sign.
  destruct (N.eqb_spec (byte a) 45); [lia | reflexivity].
Qed.

Lemma uint_first_digit (u : Decimal.uint) :
  u <> Decimal.Nil ->
  exists a s, NilEmpty.string_of_uint u = String a s /\ is_digit a = true.
Proof.
  destruct u; [congruence | ..]; intros _; simpl; eauto.
Qed.

Lemma span_digits_uint (u : Decimal.uint) (rest : string) :
  number_ends rest ->
  span_digits (NilEmpty.string_of_uint u ++ rest)
  = (NilEmpty.string_of_uint u, rest).
Proof.
  intro E; induction u; simpl;
    try (rewrite IHu; reflexivity).
  destruct rest as [| a r]; [reflexivity |].
  destruct E as [D _]; simpl; now rewrite D.
Qed.

Lemma number_ends_more (rest : string) :
  number_ends rest -> more_number rest = false.
Proof. destruct rest; simpl; tauto. Qed.

Lemma uint_beq_refl (u : Decimal.uint) : Decimal.uint_beq u u = true.
Proof. now apply Decimal.internal_uint_dec_lb. Qed.

Lemma fraction_ends (rest : string) :
  number_ends rest ->
  fraction rest = Some ("", rest) /\ exponent rest = Some (0, rest).
Proof.
  destruct rest as [| a r]; [split; reflexivity |].
  intros [_ M]; unfold more_number in M; unfold fraction, exponent.
  destruct (byte a =? 46)%N; [discriminate |].
  destruct (byte a =? 101)%N; [discriminate |].
  destruct (byte a =? 69)%N; [discriminate |].
  split; reflexivity.
Qed.

Lemma decimal_integer (n : Z) : Z.abs n <= 2 ^ 53 -> decimal n 0 = Integer n.
Proof.
  intro B; unfold decimal; change (pow10 0) with 1; change (pow10 (- 0)) with 1.
  rewrite Z.mul_1_r; now apply nearest_integer.
Qed.

Lemma parse_number_uint (u : Decimal.uint) (rest : string) :
  u <> Decimal.Nil -> Decimal.unorm u = u -> number_ends rest ->
  Z.of_uint u <= 2 ^ 53 ->
  parse_number (NilEmpty.string_of_uint u ++ rest)
  = Some (Integer (Z.of_uint u), rest)
  /\ parse_number (String "-" (NilEmpty.string_of_uint u ++ rest))
     = Some (Integer (- Z.of_uint u), rest).
Proof.
  intros NN U E B.
  assert (P0 : 0 <= Z.of_uint u)
    by (unfold Z.of_uint; apply N2Z.is_nonneg).
  destruct (uint_first_digit u NN) as (a & s & Es & D).
  destruct (fraction_ends rest E) as [Fr Ex].
  pose proof (digits_uint u "" eq_refl) as Dg.
  assert (SS : split_sign (NilEmpty.string_of_uint u ++ rest)
               = (false, NilEmpty.string_of_uint u ++ rest))
    by (rewrite Es; simpl; now apply split_sign_digit).
  unfold parse_number; split.
  - rewrite SS; cbv iota beta.
    rewrite span_digits_uint by assumption; cbv iota beta.
    rewrite NilEmpty.usu, U, uint_beq_refl, Fr, Ex, Dg.
    cbn [fst String.length]; change (0 - Z.of_nat 0) with 0.
    rewrite decimal_integer by lia; reflexivity.
  - replace (split_sign (String "-" (NilEmpty.string_of_uint u ++ rest)))
      with (true, NilEmpty.string_of_uint u ++ rest) by reflexivity.
    cbv iota beta.
    rewrite span_digits_uint by assumption; cbv iota beta.
    rewrite NilEmpty.usu, U, uint_beq_refl, Fr, Ex, Dg.
    cbn [fst String.length]; change (0 - Z.of_nat 0) with 0.
    rewrite decimal_integer by lia; reflexivity.
Qed.

Lemma unorm_to_uint (p : positive) :
  Decimal.unorm (Pos.to_uint p) = Pos.to_uint p.
Proof.
  rewrite <- Unsigned.to_of, Unsigned.of_to; reflexivity.
Qed.

(** The text of a safe integer is its decimal numeral. *)
Lemma Number_toString_safe (n : Z) :
  Z.abs n < 2 ^ 53 ->
  Number_toString (Integer n) = NilEmpty.string_of_int (Z.to_int n).
Proof.
  intro B; unfold Number_toString.
  destruct (Z.ltb_spec (Z.abs n) (2 ^ 53)); [reflexivity | lia].
Qed.

Lemma parse_number_toString (n : Z) (rest : string) :
  Z.abs n < 2 ^ 53 -> number_ends rest ->
  parse_number (Number_toString (Integer n) ++ rest)
  = Some (Integer n, rest).
Proof.
  intros B E; rewrite Number_toString_safe by assumption.
  destruct n as [| p | p]; simpl Z.to_int.
  - destruct (parse_number_uint (Decimal.D0 Decimal.Nil) rest) as [H _];
      [discriminate | reflexivity | assumption
      | vm_compute; discriminate | exact H].
  - assert (V : Z.of_uint (Pos.to_uint p) = Z.pos p)
      by (unfold Z.of_uint; now rewrite Unsigned.of_to).
    destruct (parse_number_uint (Pos.to_uint p) rest) as [H _]; auto.
    + apply Unsigned.to_uint_nonnil.
    + apply unorm_to_uint.
    + lia.
    + simpl NilEmpty.string_of_int; rewrite H, V; reflexivity.
  - assert (V : Z.of_uint (Pos.to_uint p) = Z.pos p)
      by (unfold Z.of_uint; now rewrite Unsigned.of_to).
    destruct (parse_number_uint (Pos.to_uint p) rest) as [_ H]; auto.
    + apply Unsigned.to_uint_nonnil.
    + apply unorm_to_uint.
    + lia.
    + simpl NilEmpty.string_of_int; simpl append; rewrite H, V; reflexivity.
Qed.

Lemma Number_toString_first (n : Z) :
  Z.abs n < 2 ^ 53 ->
  exists a s, Number_toString (Integer n) = String a s
              /\ (is_digit a = true \/ byte a = 45%N).
Proof.
  intro B; rewrite Number_toString_safe by assumption.
  destruct n as [| p | p]; simpl.
  - do 2 eexists; split; [reflexivity | now left].
  - destruct (uint_first_digit (Pos.to_uint p)) as (a & s & E & D);
      [apply Unsigned.to_uint_nonnil |].
    exists a, s; auto.
  - do 2 eexists; split; [reflexivity | now right].
Qed.

(** The text of a number that is a safe integer. *)
Lemma stringify_safe (indent : string) (x : number) :
  safe x ->
  exists n, x = Integer n /\ Z.abs n < 2 ^ 53
            /\ stringify_at indent (JNum x) = Number_toString (Integer n).
Proof.
  destruct x as [n | |]; simpl; try contradiction.
  intro B; exists n; auto.
Qed.

(** *** Unfolding the parser *)

Lemma parse_value_S (fuel : nat) (s : string) :
  parse_value (S fuel) s =
  match skip_ws s with
  | EmptyString => None
  | String a r as s' =>
      let c := byte a in
      if (c =? 110)%N then option_map (pair JNull) (strip_prefix "ull" r)
      else if (c =? 116)%N then
        option_map (pair (JBool true)) (strip_prefix "rue" r)
      else if (c =? 102)%N then
        option_map (pair (JBool false)) (strip_prefix "alse" r)
      else if (c =? 34)%N then
        match parse_chars r with
        | Some (str, rest) => Some (JStr str, rest)
        | None => None
        end
      else if (c =? 91)%N then
        match skip_ws r with
        | EmptyString => None
        | String b r' =>
            if (byte b =? 93)%N then Some (JArr [], r')
            else parse_elements fuel r []
        end
      else if (c =? 123)%N then
        match skip_ws r with
        | EmptyString => None
        | String b r' =>
            if (byte b =? 125)%N then Some (JObj [], r')
            else parse_members fuel r []
        end
      else
        match parse_number s' with
        | Some (n, rest) => Some (JNum n, rest)
        | None => None
        end
  end.
Proof. reflexivity. Qed.

Lemma parse_elements_S (fuel : nat) (s : string) (acc : list json) :
  parse_elements (S fuel) s acc =
  match parse_value fuel s with
  | None => None
  | Some (v, rest) =>
      match skip_ws rest with
      | EmptyString => None
      | String b r =>
          if (byte b =? 44)%N then parse_elements fuel r (acc ++ [v])
          else if (byte b =? 93)%N then Some (JArr (acc ++ [v]), r)
          else None
      end
  end.
Proof. reflexivity. Qed.

Lemma parse_members_S (fuel : nat) (s : string)
  (acc : list (string * json)) :
  parse_members (S fuel) s acc =
  match skip_ws s with
  | EmptyString => None
  | String q r =>
      if (byte q =? 34)%N then
        match parse_chars r with
        | None => None
        | Some (k, rest) =>
            match skip_ws rest with
            | EmptyString => None
            | String colon r1 =>
                if (byte colon =? 58)%N then
                  match parse_value fuel r1 with
                  | None => None
                  | Some (v, rest1) =>
                      match skip_ws rest1 with
                      | EmptyString => None
                      | String b r2 =>
                          if (byte b =? 44)%N then
                            parse_members fuel r2 (define_property k v acc)
                          else if (byte b =? 125)%N then
                            Some (JObj (define_property k v acc), r2)
                          else None
                      end
                  end
                else None
            end
        end
      else None
  end.
Proof. reflexivity. Qed.

Lemma stringify_arr (indent : string) (x : json) (xs : list json) :
  stringify_at indent (JArr (x :: xs)) =
  "[" ++ String newline (indent ++ "  ")
    ++ join ("," ++ String newline (indent ++ "  "))
         (map (stringify_at (indent ++ "  ")) (x :: xs))
    ++ String newline indent ++ "]".
Proof. reflexivity. Qed.

Lemma stringify_obj (indent : string) (kv : string * json)
  (kvs : list (string * json)) :
  stringify_at indent (JObj (kv :: kvs)) =
  "{" ++ String newline (indent ++ "  ")
    ++ join ("," ++ String newline (indent ++ "  "))
         (map (fun kv => quote (fst kv) ++ ": "
                         ++ stringify_at (indent ++ "  ") (snd kv))
              (kv :: kvs))
    ++ String newline indent ++ "}".
Proof. reflexivity. Qed.

Lemma join_cons (sep s : string) (l : list string) :
  join sep (s :: l) =
  match l with
  | [] => s
  | _ => s ++ sep ++ join sep l
  end.
Proof. destruct l; reflexivity. Qed.

Lemma stringify_first (indent : string) (v : json) :
  safe_numbers v ->
  exists a s, stringify_at indent v = String a s /\ opens a.
Proof.
  intro SN.
  assert (O : forall a, is_ws a = false -> byte a <> 93%N ->
                        byte a <> 125%N -> opens a)
    by (intros; repeat split; assumption).
  destruct v as [| b | n | s | xs | kvs].
  - do 2 eexists; split; [reflexivity | apply O; [reflexivity | easy ..]].
  - destruct b; do 2 eexists;
      (split; [reflexivity | apply O; [reflexivity | easy ..]]).
  - destruct (stringify_safe indent n SN) as (k & -> & B & ->).
    destruct (Number_toString_first k B) as (a & s & E & D).
    exists a, s; split; [exact E |].
    unfold opens, is_ws; destruct D as [D | D].
    + apply is_digit_byte in D.
      repeat split; try lia.
      repeat (apply orb_false_intro); apply N.eqb_neq; lia.
    + rewrite D; repeat split; try reflexivity; discriminate.
  - do 2 eexists; split; [reflexivity | apply O; [reflexivity | easy ..]].
  - destruct xs; do 2 eexists;
      (split; [reflexivity | apply O; [reflexivity | easy ..]]).
  - destruct kvs; do 2 eexists;
      (split; [reflexivity | apply O; [reflexivity | easy ..]]).
Qed.

Lemma weight_length (v : json) :
  safe_numbers v ->
  forall indent, (weight v <= String.length (stringify_at indent v))%nat.
Proof.
  induction v as [| b | n | s | xs IH | kvs IH]
    using json_induction; intros SN indent.
  - simpl; lia.
  - destruct b; simpl; lia.
  - destruct (stringify_safe indent n SN) as (k & -> & B & ->).
    destruct (Number_toString_first k B) as (a & s & E & _).
    rewrite E; simpl; lia.
  - simpl; lia.
  - apply safe_numbers_arr in SN.
    assert (IH' : Forall (fun v => forall i,
                    (weight v <= String.length (stringify_at i v))%nat) xs).
    { rewrite Forall_forall in *; intros x Hx; apply IH; auto. }
    clear IH; rename IH' into IH.
    destruct xs as [| x xs]; [simpl; lia |].
    rewrite stringify_arr.
    set (inner := indent ++ "  ").
    set (sep := "," ++ String newline inner).
    assert (J : forall l, Forall (fun v => forall i,
                  (weight v <= String.length (stringify_at i v))%nat) l ->
                (fold_right (fun x acc => S (weight x + acc)) 0 l
                 <= String.length (join sep (map (stringify_at inner) l))
                    + 1)%nat).
    { induction l as [| y l IHl]; intro F; [simpl; lia |].
      inversion F as [| ? ? Hy Hl]; subst.
      specialize (IHl Hl); specialize (Hy inner).
      cbn [map fold_right]; rewrite join_cons.
      destruct l as [| z l]; [simpl in *; lia |].
      cbn [map] in *; cbv iota.
      assert (Ls : String.length sep = S (S (String.length inner)))
        by reflexivity.
      rewrite !length_append, Ls.
      cbn [fold_right] in *; lia. }
    specialize (J _ IH).
    change (weight (JArr (x :: xs)))
      with (S (fold_right (fun x acc => S (weight x + acc)) 0 (x :: xs)))%nat.
    cbn [append String.length]; rewrite !length_append.
    cbn [String.length]; lia.
  - apply safe_numbers_obj in SN.
    assert (IH' : Forall (fun kv => forall i,
                    (weight (snd kv)
                     <= String.length (stringify_at i (snd kv)))%nat) kvs).
    { rewrite Forall_forall in *; intros x Hx; apply IH; auto. }
    clear IH; rename IH' into IH.
    destruct kvs as [| kv kvs]; [simpl; lia |].
    rewrite stringify_obj.
    set (inner := indent ++ "  ").
    set (sep := "," ++ String newline inner).
    set (member := fun kv : string * json =>
                     quote (fst kv) ++ ": " ++ stringify_at inner (snd kv)).
    assert (J : forall l, Forall (fun kv => forall i,
                  (weight (snd kv)
                   <= String.length (stringify_at i (snd kv)))%nat) l ->
                (fold_right (fun kv acc => S (weight (snd kv) + acc)) 0 l
                 <= String.length (join sep (map member l)) + 1)%nat).
    { induction l as [| y l IHl]; intro F; [simpl; lia |].
      inversion F as [| ? ? Hy Hl]; subst.
      specialize (IHl Hl); specialize (Hy inner).
      cbn [map fold_right]; rewrite join_cons.
      assert (M : (weight (snd y) <= String.length (member y))%nat).
      { unfold member; rewrite !length_append; lia. }
      destruct l as [| z l]; [simpl in *; lia |].
      cbn [map] in *; cbv iota.
      assert (Ls : String.length sep = S (S (String.length inner)))
        by reflexivity.
      rewrite !length_append, Ls.
      cbn [fold_right] in *; lia. }
    specialize (J _ IH).
    change (weight (JObj (kv :: kvs)))
      with (S (fold_right (fun kv acc => S (weight (snd kv) + acc)) 0
                 (kv :: kvs)))%nat.
    cbn [append String.length]; rewrite !length_append.
    cbn [String.length]; lia.
Qed.

(** *** Text written by [stringify] parses back *)

Lemma dispatch_number (fuel : nat) (a : ascii) (r : string) :
  is_digit a = true \/ byte a = 45%N ->
  parse_value (S fuel) (String a r) =
  match parse_number (String a r) with
  | Some (n, rest) => Some (JNum n, rest)
  | None => None
  end.
Proof.
  intro D; rewrite parse_value_S.
  assert (R : (byte a = 45 \/ 48 <= byte a <= 57)%N)
    by (destruct D as [D | D]; [apply is_digit_byte in D |]; lia).
  assert (W : is_ws a = false)
    by (unfold is_ws; repeat (apply orb_false_intro); apply N.eqb_neq; lia).
  simpl skip_ws; rewrite W; cbv zeta.
  repeat match goal with
         | |- context [(byte a =? ?k)%N] =>
             destruct (N.eqb_spec (byte a) k); [lia |]
         end.
  reflexivity.
Qed.

Lemma parse_value_blank (fuel : nat) (ws s : string) :
  blank ws = true -> parse_value fuel (ws ++ s) = parse_value fuel s.
Proof.
  intro B; destruct fuel as [| fuel]; [reflexivity |].
  now rewrite !parse_value_S, skip_ws_blank.
Qed.

Lemma parses_back_null : parses_back JNull.
Proof.
  intros indent ws [| fuel] rest _ B _ F; [simpl in F; lia |].
  now rewrite parse_value_blank.
Qed.

Lemma parses_back_bool (b : bool) : parses_back (JBool b).
Proof.
  intros indent ws [| fuel] rest _ B _ F; [simpl in F; lia |].
  rewrite parse_value_blank by assumption.
  now destruct b.
Qed.

Lemma parses_back_num (x : number) : safe x -> parses_back (JNum x).
Proof.
  intros SN indent ws [| fuel] rest _ B E F; [simpl in F; lia |].
  rewrite parse_value_blank by assumption.
  destruct (stringify_safe indent x SN) as (n & -> & Bn & ->).
  destruct (Number_toString_first n Bn) as (a & s & Es & D).
  rewrite Es; cbn [append].
  rewrite dispatch_number by assumption.
  change (String a (s ++ rest)) with (String a s ++ rest).
  now rewrite <- Es, parse_number_toString.
Qed.

Lemma parses_back_str (s : string) : parses_back (JStr s).
Proof.
  intros indent ws [| fuel] rest _ B _ F; [simpl in F; lia |].
  rewrite parse_value_blank by assumption.
  cbn [stringify_at]; unfold quote; cbn [append].
  rewrite append_assoc; cbn [append].
  rewrite parse_value_S.
  change (skip_ws (String dquote ?x)) with (String dquote x).
  cbv zeta; change (byte dquote) with 34%N; cbn [N.eqb Pos.eqb].
  now rewrite parse_chars_escape.
Qed.

Lemma skip_ws_opens (a : ascii) (s : string) :
  is_ws a = false -> skip_ws (String a s) = String a s.
Proof. intro W; simpl; now rewrite W. Qed.

Lemma number_ends_comma (s : string) : number_ends (String "," s).
Proof. split; reflexivity. Qed.

Lemma number_ends_newline (s : string) : number_ends (String newline s).
Proof. split; reflexivity. Qed.

(** The elements of an array, from the line of the first one. *)
Lemma parse_elements_text (inner tail rest : string) (xs : list json) :
  blank inner = true -> number_ends tail -> skip_ws tail = String "]" rest ->
  forall x acc fuel,
    Forall parses_back (x :: xs) ->
    (fold_right (fun x acc => S (weight x + acc)) 0 (x :: xs) <= fuel)%nat ->
    parse_elements fuel
      (String newline inner
         ++ join ("," ++ String newline inner)
              (map (stringify_at inner) (x :: xs))
         ++ tail) acc
    = Some (JArr (acc ++ x :: xs), rest).
Proof.
  intros Bi Et St.
  assert (Bw : blank (String newline inner) = true) by exact Bi.
  induction xs as [| y ys IH]; intros x acc fuel P F;
    (destruct fuel as [| fuel]; [simpl in F; lia |]);
    inversion P as [| ? ? Px Prest]; subst;
    rewrite parse_elements_S; cbn [map]; rewrite join_cons.
  - rewrite (Px inner (String newline inner) fuel tail) by
      (auto; simpl in F; lia).
    now rewrite St.
  - cbv iota; rewrite !append_assoc.
    rewrite (Px inner (String newline inner) fuel);
      [| assumption | assumption | exact (number_ends_comma _)
       | cbn [fold_right] in F; lia].
    cbn [append]; rewrite skip_ws_opens by reflexivity.
    change (byte "," =? 44)%N with true; cbv iota.
    change (String newline (inner ++ ?t))
      with (String newline inner ++ t).
    rewrite <- append_assoc.
    change (stringify_at inner y :: map (stringify_at inner) ys)
      with (map (stringify_at inner) (y :: ys)).
    rewrite append_assoc.
    rewrite IH by (auto; cbn [fold_right] in F |- *; lia).
    now rewrite <- List.app_assoc.
Qed.

Lemma bracket_text (open close : ascii) (indent inner body rest : string) :
  (String open "" ++ String newline inner ++ body
     ++ String newline indent ++ String close "") ++ rest
  = String open (String newline inner ++ body
                   ++ String newline (indent ++ String close rest)).
Proof.
  cbn [append]; do 2 f_equal; rewrite !append_assoc; cbn [append].
  now rewrite append_assoc.
Qed.

Lemma join_first (sep s : string) (l : list string) :
  exists t, join sep (s :: l) = s ++ t.
Proof.
  rewrite join_cons; destruct l; [exists ""; now rewrite append_nil_r |].
  eexists; reflexivity.
Qed.

Lemma skip_ws_first (ws s t r : string) (c : ascii) :
  blank ws = true -> s = String c r -> is_ws c = false ->
  skip_ws (ws ++ (s ++ t)) = String c (r ++ t).
Proof.
  intros B -> W; rewrite skip_ws_blank by assumption.
  cbn [append]; now apply skip_ws_opens.
Qed.

Lemma parses_back_arr (xs : list json) :
  Forall safe_numbers xs -> Forall parses_back xs -> parses_back (JArr xs).
Proof.
  intros SN P indent ws [| fuel] rest Bi B E F; [simpl in F; lia |].
  rewrite parse_value_blank by assumption.
  destruct xs as [| x xs]; [reflexivity |].
  rewrite stringify_arr.
  assert (Bn : blank (indent ++ "  ") = true) by now apply blank_append.
  destruct (stringify_first (indent ++ "  ") x) as (a & s & Es & O1 & O2 & O3);
    [now inversion SN |].
  remember (indent ++ "  ") as inner eqn:Hi.
  remember (join ("," ++ String newline inner)
              (map (stringify_at inner) (x :: xs))) as body eqn:Hb.
  rewrite bracket_text, parse_value_S, skip_ws_opens by reflexivity.
  cbv zeta; change (byte "[") with 91%N; cbn [N.eqb Pos.eqb].
  destruct (join_first ("," ++ String newline inner) (stringify_at inner x)
              (map (stringify_at inner) xs)) as [t Ht].
  cbn [map] in Hb; rewrite Ht in Hb.
  rewrite (skip_ws_first (String newline inner) body _ (s ++ t) a);
    [| exact Bn | now rewrite Hb, Es | assumption].
  destruct (N.eqb_spec (byte a) 93) as [e | _]; [contradiction |].
  rewrite <- Ht in Hb; subst body.
  apply (parse_elements_text inner
           (String newline (indent ++ String "]" rest)) rest xs Bn).
  - apply number_ends_newline.
  - change (String newline (indent ++ String "]" rest))
      with (String newline indent ++ String "]" rest).
    now rewrite skip_ws_blank.
  - exact P.
  - simpl in F; cbn [fold_right]; lia.
Qed.

Lemma member_text (k sv r : string) :
  (quote k ++ ": " ++ sv) ++ r
  = String dquote (escape_all k ++ String dquote (String ":" (" " ++ sv ++ r))).
Proof.
  unfold quote; cbn [append]; f_equal.
  rewrite !append_assoc; cbn [append]; now rewrite ?append_assoc.
Qed.

Lemma keys_app (l1 l2 : list (string * json)) :
  keys (l1 ++ l2) = (keys l1 ++ keys l2)%list.
Proof. apply map_app. Qed.

(** The members of an object, from the line of the first one. *)
Lemma parse_members_text (inner tail rest : string)
  (kvs : list (string * json)) :
  blank inner = true -> number_ends tail -> skip_ws tail = String "}" rest ->
  forall kv acc fuel,
    Forall (fun kv => parses_back (snd kv)) (kv :: kvs) ->
    NoDup (keys (acc ++ kv :: kvs)) ->
    ordered (keys (acc ++ kv :: kvs)) = true ->
    (fold_right (fun kv acc => S (weight (snd kv) + acc)) 0 (kv :: kvs)
     <= fuel)%nat ->
    parse_members fuel
      (String newline inner
         ++ join ("," ++ String newline inner)
              (map (fun kv => quote (fst kv) ++ ": "
                              ++ stringify_at inner (snd kv)) (kv :: kvs))
         ++ tail) acc
    = Some (JObj (acc ++ kv :: kvs), rest).
Proof.
  intros Bi Et St.
  assert (Bw : blank (String newline inner) = true) by exact Bi.
  induction kvs as [| kv' kvs IH]; intros [k v] acc fuel P ND O F;
    (destruct fuel as [| fuel]; [simpl in F; lia |]);
    inversion P as [| ? ? Pv Prest]; subst; cbn [snd fst] in *;
    rewrite parse_members_S; cbn [map fst snd]; rewrite join_cons;
    assert (Fr : define_property k v acc = (acc ++ [(k, v)])%list)
      by (apply define_property_last;
          [rewrite keys_app in O; eapply ordered_prefix;
           rewrite <- List.app_assoc; exact O
          | rewrite keys_app in ND; apply NoDup_remove_2 in ND;
            intro H; apply ND, in_or_app; now left]).
  - rewrite member_text, skip_ws_blank by assumption.
    rewrite skip_ws_opens by reflexivity.
    change (byte dquote =? 34)%N with true; cbv iota.
    rewrite parse_chars_escape, skip_ws_opens by reflexivity.
    change (byte ":" =? 58)%N with true; cbv iota.
    rewrite (Pv inner " " fuel tail);
      [| assumption | reflexivity | assumption | simpl in F; lia].
    rewrite St; change (byte "}" =? 44)%N with false.
    change (byte "}" =? 125)%N with true; cbv iota.
    now rewrite Fr.
  - cbv iota; rewrite append_assoc, member_text.
    rewrite skip_ws_blank by assumption.
    rewrite skip_ws_opens by reflexivity.
    change (byte dquote =? 34)%N with true; cbv iota.
    rewrite parse_chars_escape, skip_ws_opens by reflexivity.
    change (byte ":" =? 58)%N with true; cbv iota.
    rewrite !append_assoc.
    rewrite (Pv inner " " fuel);
      [| assumption | reflexivity | exact (number_ends_comma _)
       | cbn [fold_right snd] in F; lia].
    cbn [append]; rewrite skip_ws_opens by reflexivity.
    change (byte "," =? 44)%N with true; cbv iota.
    rewrite Fr.
    change (String newline (inner ++ ?t))
      with (String newline inner ++ t).
    change (acc ++ (k, v) :: kv' :: kvs)%list
      with (acc ++ ([(k, v)] ++ kv' :: kvs))%list in ND, O |- *.
    rewrite List.app_assoc in ND, O |- *.
    apply (IH kv' (acc ++ [(k, v)])%list fuel Prest ND O).
    cbn [fold_right snd] in F |- *; lia.
Qed.

Lemma parses_back_obj (kvs : list (string * json)) :
  NoDup (keys kvs) -> ordered (keys kvs) = true ->
  Forall (fun kv => parses_back (snd kv)) kvs ->
  parses_back (JObj kvs).
Proof.
  intros ND O P indent ws [| fuel] rest Bi B E F; [simpl in F; lia |].
  rewrite parse_value_blank by assumption.
  destruct kvs as [| kv kvs]; [reflexivity |].
  rewrite stringify_obj.
  assert (Bn : blank (indent ++ "  ") = true) by now apply blank_append.
  remember (indent ++ "  ") as inner eqn:Hi.
  remember (join ("," ++ String newline inner)
              (map (fun kv => quote (fst kv) ++ ": "
                              ++ stringify_at inner (snd kv)) (kv :: kvs)))
    as body eqn:Hb.
  rewrite bracket_text, parse_value_S, skip_ws_opens by reflexivity.
  cbv zeta; change (byte "{") with 123%N; cbn [N.eqb Pos.eqb].
  destruct (join_first ("," ++ String newline inner)
              (quote (fst kv) ++ ": " ++ stringify_at inner (snd kv))
              (map (fun kv => quote (fst kv) ++ ": "
                              ++ stringify_at inner (snd kv)) kvs))
    as [t Ht].
  cbn [map] in Hb; rewrite Ht in Hb.
  rewrite (skip_ws_first (String newline inner) body _
             ((escape_all (fst kv) ++ String dquote "")
              ++ (": " ++ stringify_at inner (snd kv)) ++ t) dquote);
    [| exact Bn
     | rewrite Hb; unfold quote; cbn [append]; now rewrite !append_assoc
     | reflexivity].
  change (byte dquote =? 125)%N with false; cbv iota.
  rewrite <- Ht in Hb; subst body.
  apply (parse_members_text inner
           (String newline (indent ++ String "}" rest)) rest kvs Bn).
  - apply number_ends_newline.
  - change (String newline (indent ++ String "}" rest))
      with (String newline indent ++ String "}" rest).
    now rewrite skip_ws_blank.
  - exact P.
  - exact ND.
  - exact O.
  - simpl in F; cbn [fold_right]; lia.
Qed.

Lemma plain_parses_back (v : json) : plain v -> parses_back v.
Proof.
  induction v as [| b | n | s | xs IH | kvs IH] using json_induction;
    intro W.
  - apply parses_back_null.
  - apply parses_back_bool.
  - apply parses_back_num, W.
  - apply parses_back_str.
  - pose proof (proj1 (safe_numbers_arr xs) (proj2 W)) as SN.
    apply parses_back_arr; [exact SN |].
    apply plain_arr in W; rewrite Forall_forall in *; auto.
  - apply plain_obj in W as [[ND O] W].
    apply parses_back_obj; [assumption | assumption |].
    rewrite Forall_forall in *; auto.
Qed.

(** The reference codec round-trips. *)
Lemma Ref_round_trips : round_trips RefCodec.
Proof.
  intros v W; simpl; unfold parse, stringify.
  pose proof (plain_parses_back v W "" "" (String.length (stringify_at "" v)) ""
                eq_refl eq_refl I (weight_length v (proj2 W) "")) as H.
  cbn [append] in H; rewrite append_nil_r in H.
  now rewrite H.
Qed.

(** *** Parsing builds well-formed values *)



End RefFacts.
(* ================================================================== *)
(** ** The file format, with the reference codec *)

Local Open Scope list_scope.

#[local] Existing Instance RefCodec.


(* ================================================================== *)
(** ** The theorems at concrete requests and files *)

(** Side conditions on concrete bodies and collections. *)
Ltac printable_field :=
  let x := fresh "x" in
  let E := fresh "E" in
  let U := fresh "U" in
  intros x E U; injection E as <-; inversion U.

Ltac creatable_body :=
  split; [split; reflexivity | split; printable_field].

Ltac plain_books :=
  cbn [app];
  repeat (apply Forall_cons; [apply plain_book; vm_compute; reflexivity |]);
  apply Forall_nil.

Ltac no_null := simpl; intuition discriminate.

(** The scenario of the specification: create, update, delete, list. *)
Example scenario :
  let r1 := run (post_books (titled "A" "B")) no_file in
  let r2 := run (put_books_id "1" (Some (JObj [("available", JBool true)])))
              (snd r1) in
  let r3 := run (delete_books_id "1") (snd r2) in
  let r4 := run get_books (snd r3) in
  fst r1 = Val (Json 201 (book 1 "A" "B" false))
  /\ fst r2 = Val (Json 200 (book 1 "A" "B" true))
  /\ fst r3 = Val (Send 204)
  /\ fst r4 = Val (Json 200 (JArr [])).
Proof. vm_compute; repeat split. Qed.

(** [parseInt] reads a leading integer, ignores what follows it, and
    rounds to a double. *)
Example parseId_examples :
  map parseId ["42"; " 42"; "-7"; "+3"; "12abc"; "1.9"; "abc"; ""; "-";
               "9007199254740993"]
  = [Some (Integer 42); Some (Integer 42); Some (Integer (-7));
     Some (Integer 3); Some (Integer 12); Some (Integer 1); None; None;
     None; Some (Integer 9007199254740992)].
Proof. vm_compute; reflexivity. Qed.

(** Doubles.  [2^53 + 1] is [2^53], so that a collection whose largest
    id is [2^53] gets a second record with that id.  A literal with a
    fraction or an exponent is read; one beyond the largest double is
    read as an infinity and written back as [null].  From [10^21] a
    number is printed with an exponent. *)
Example doubles :
  add1 (Integer (2 ^ 53)) = Integer (2 ^ 53)
  /\ fst (run (post_books (titled "C" "D"))
            (stored [book (2 ^ 53) "A" "B" false]))
     = Val (Json 201 (book (2 ^ 53) "C" "D" false))
  /\ Ref.parse "[0.1, 1.5e2, -2.5E-1, 1e400]"
     = Some (JArr [JNum (Fraction 3602879701896397 55); JNum (Integer 150);
                   JNum (Fraction (-1) 2); JNum (Infinity false)])
  /\ run save_load (file "[1e400]") = (Val tt, stored [JNull])
  /\ map Number_toString
       [Integer (10 ^ 21); Integer (2 ^ 64); Fraction 3602879701896397 55;
        Fraction 1 1074; Fraction (-3) 1; Infinity true]
     = ["1e+21"; "18446744073709552000"; "0.1"; "5e-324"; "-1.5";
        "-Infinity"].
Proof. vm_compute; repeat split. Qed.

(** The properties of a parsed object come in the order of their
    enumeration: the array indices first, in ascending order, then the
    other keys in the order of the text; a key that occurs twice keeps
    its first place and its last value. *)
Example property_order :
  Ref.parse ("{" ++ Ref.quote "b" ++ ":1," ++ Ref.quote "10" ++ ":2,"
             ++ Ref.quote "9" ++ ":3," ++ Ref.quote "01" ++ ":4,"
             ++ Ref.quote "b" ++ ":5," ++ Ref.quote "9" ++ ":6}")
  = Some (JObj [("9", JNum (Integer 6)); ("10", JNum (Integer 2));
                ("b", JNum (Integer 5)); ("01", JNum (Integer 4))]).
Proof. vm_compute; reflexivity. Qed.

(** [String] throws on an object with a property [toString]:
    [POST /books] and [PUT /books/:id] then answer 500 and leave the
    file as it was. *)
Example unprintable_title :
  let title := JObj [("toString", JNum (Integer 1))] in
  let d := stored [book 1 "A" "B" false] in
  String_ title = Exn TypeError
  /\ String_ (JArr [JStr "a"; JNull; JArr [JNum (Integer 2)]; JObj []])
     = Val "a,,2,[object Object]"
  /\ run (post_books (Some (JObj [("title", title); ("author", JStr "B")]))) d
     = (Val (Json 500 (error_body "Failed to add book.")), d)
  /\ run (put_books_id "1" (Some (JObj [("title", title)]))) d
     = (Val (Json 500 (error_body "Failed to update book.")), d).
Proof. vm_compute; repeat split. Qed.

(** A [null] element in the file makes the callback of [reduce] throw,
    and [POST /books] answers 500; the callbacks of [filter] and
    [findIndex] test the element first. *)
Example create_with_null_element :
  fst (run (post_books (titled "A" "B")) (stored [JNull]))
  = Val (Json 500 (error_body "Failed to add book."))
  /\ fst (run get_books_available (stored [JNull])) = Val (Json 200 (JArr []))
  /\ fst (run (delete_books_id "1") (stored [JNull]))
     = Val (Json 404 (error_body "Book not found")).
Proof. vm_compute; repeat split. Qed.

(** C2 at three files: absent, text that is not JSON, and an object. *)
Lemma readBooks_absent_malformed_nonarray_witness :
  run readBooks no_file = (Val [], no_file)
  /\ run readBooks (file "[1,") = (Exn SyntaxError, file "[1,")
  /\ run readBooks (file "{}") = (Val [], file "{}").
Proof.
  split; [| split].
  - apply (proj1 (readBooks_absent_malformed_nonarray no_file eq_refl));
      reflexivity.
  - apply (proj1 (proj2 (readBooks_absent_malformed_nonarray (file "[1,")
                           eq_refl)) "[1,");
      reflexivity.
  - apply (proj2 (proj2 (readBooks_absent_malformed_nonarray (file "{}")
                           eq_refl)) "{}" (JObj []));
      [reflexivity | reflexivity | discriminate].
Defined.

(** C4 on a collection with a string and a missing [available]. *)
Lemma list_available_filters_list_all_witness :
  let all := [book 1 "A" "B" true;
              JObj [("id", JNum (Integer 2)); ("available", JStr "true")];
              JObj [("id", JNum (Integer 3))];
              book 4 "C" "D" false;
              book 5 "E" "F" true] in
  run get_books_available (stored all)
  = (Val (Json 200 (JArr [book 1 "A" "B" true; book 5 "E" "F" true])),
     stored all).
Proof.
  intro all.
  refine (proj1 (list_available_filters_list_all (stored all) all _)).
  vm_compute; reflexivity.
Defined.

(** C5 on a body whose [available] is the number 1. *)
Lemma create_validation_and_available_witness :
  let body := Some (JObj [("title", JStr "A"); ("author", JStr "B");
                          ("available", JNum (Integer 1))]) in
  let created := book 1 "A" "B" false in
  fst (run (post_books body) no_file) = Val (Json 201 created)
  /\ prop created "available" = Some (JBool false).
Proof.
  intros body created.
  assert (R : fst (run (post_books body) no_file) = Val (Json 201 created))
    by (vm_compute; reflexivity).
  split; [exact R |].
  apply (proj2 (create_validation_and_available body no_file) created R).
  intros [b H]; discriminate H.
Defined.

(** C5, as stated, fails: a [title] of 0 is supplied and is not empty,
    and [POST /books] answers 400 "title and author are required". *)
Lemma create_rejects_title_zero :
  let body := Some (JObj [("title", JNum (Integer 0));
                          ("author", JStr "B")]) in
  fst (run (post_books body) no_file)
  = Val (Json 400 (error_body "title and author are required"))
  /\ ~ (missing_or_empty (prop (or_empty body) "title")
        \/ missing_or_empty (prop (or_empty body) "author")).
Proof.
  split; [reflexivity |].
  unfold missing_or_empty; simpl; intuition discriminate.
Qed.

(** C6 on an update of the title of the second of two records, whose
    body also carries an [id]. *)
Lemma update_overwrites_supplied_fields_only_witness :
  let d := stored [book 1 "A" "B" false; book 2 "C" "D" true] in
  let body := Some (JObj [("title", JStr "Z"); ("id", JNum (Integer 9))]) in
  run (put_books_id "2" body) d
  = (Val (Json 200 (book 2 "Z" "D" true)),
     stored [book 1 "A" "B" false; book 2 "Z" "D" true])
  /\ exists id books idx old,
       parseId "2" = Some id /\ load d = Val books
       /\ findIndex (has_id id) books = Some idx
       /\ nth_error books idx = Some old
       /\ prop (book 2 "Z" "D" true) "author" = prop old "author".
Proof.
  intros d body.
  assert (R : run (put_books_id "2" body) d
              = (Val (Json 200 (book 2 "Z" "D" true)),
                 stored [book 1 "A" "B" false; book 2 "Z" "D" true]))
    by (vm_compute; reflexivity).
  split; [exact R |].
  destruct (update_overwrites_supplied_fields_only "2" body d _ _ R)
    as (id & books & idx & old & H1 & H2 & H3 & H4 & _ & _ & _ & H8 & _).
  exists id, books, idx, old; repeat split; try assumption.
  apply H8; left; reflexivity.
Defined.

(** C7 on an unknown id and on a body with no allowed field. *)
Lemma failing_update_leaves_store_unchanged_witness :
  let d := stored [book 1 "A" "B" false] in
  run (put_books_id "7" (Some (JObj [("title", JStr "Z")]))) d
  = (Val (Json 404 (error_body "Book not found")), d)
  /\ exists msg,
       put_books_id "1" (Some (JObj [("pages", JNum (Integer 3))]))
       = Ret (Json 400 (error_body msg)).
Proof.
  intro d; split.
  - apply (proj1 (failing_update_leaves_store_unchanged "7"
                    (Some (JObj [("title", JStr "Z")])))
             d (Integer 7) [book 1 "A" "B" false]).
    + vm_compute; reflexivity.
    + exists "title"; split; [now left | discriminate].
    + vm_compute; reflexivity.
    + intros b [<- | []]; discriminate.
  - apply (proj1 (proj2 (failing_update_leaves_store_unchanged "1"
                           (Some (JObj [("pages", JNum (Integer 3))]))))).
    intros k [<- | [<- | [<- | []]]]; reflexivity.
Defined.

(** C8 on the parameters [abc] and [ 2xyz]. *)
Lemma id_parameter_is_parsed_then_looked_up_witness :
  (forall body,
      put_books_id "abc" body = Ret (Json 400 (error_body "Invalid id")))
  /\ delete_books_id "abc" = Ret (Json 400 (error_body "Invalid id"))
  /\ run (delete_books_id " 2xyz")
       (stored [book 1 "A" "B" false; book 2 "C" "D" true])
     = (Val (Send 204), stored [book 1 "A" "B" false])
  /\ exists book',
       run (put_books_id " 2xyz" (Some (JObj [("title", JStr "Z")])))
         (stored [book 1 "A" "B" false; book 2 "C" "D" true])
       = (Val (Json 200 book'), stored [book 1 "A" "B" false; book'])
       /\ prop book' "id" = Some (JNum (Integer 2)).
Proof.
  assert (N : forall n, ~ leading_integer "abc" n)
    by (apply parseId_None; reflexivity).
  assert (L : leading_integer " 2xyz" 2).
  { exists " "%string, ""%string, "2"%string, "xyz"%string.
    repeat split; auto; [| discriminate].
    apply white_1; [reflexivity | constructor]. }
  destruct (proj1 (proj1 (id_parameter_is_parsed_then_looked_up "abc")) N)
    as [P D].
  destruct (proj2 (id_parameter_is_parsed_then_looked_up " 2xyz") 2 L)
    as (E & _ & F).
  rewrite E in F by (vm_compute; discriminate).
  destruct (F (stored [book 1 "A" "B" false; book 2 "C" "D" true])
              [book 1 "A" "B" false] (book 2 "C" "D" true) [])
    as [Del Put].
  - vm_compute; reflexivity.
  - reflexivity.
  - intros b [<- | []]; discriminate.
  - reflexivity.
  - split; [exact P | split; [exact D | split; [exact Del |]]].
    apply (Put (Some (JObj [("title", JStr "Z")]))).
    + exists "title"%string; split; [now left | discriminate].
    + printable_field.
    + intros x E'; discriminate E'.
Defined.

(** C8, as stated, fails: [2xyz] and [1.9] are not integer numerals, yet
    [DELETE /books/2xyz] deletes the record with id 2 and
    [PUT /books/1.9] updates the record with id 1. *)
Lemma id_with_trailing_text_is_looked_up :
  let d := stored [book 1 "A" "B" false; book 2 "C" "D" true] in
  integer_numeral "2xyz" = false /\ integer_numeral "1.9" = false
  /\ run (delete_books_id "2xyz") d
     = (Val (Send 204), stored [book 1 "A" "B" false])
  /\ run (put_books_id "1.9" (Some (JObj [("title", JStr "Z")]))) d
     = (Val (Json 200 (book 1 "Z" "B" false)),
        stored [book 1 "Z" "B" false; book 2 "C" "D" true]).
Proof. vm_compute; repeat split. Qed.





(** A number literal beyond the largest double is not written back as
    it was read either. *)
Example save_load_replaces_overflowing_literal :
  run save_load (file "[1e400]") = (Val tt, stored [JNull])
  /\ ~ same_modulo_formatting "[1e400]" (Ref.stringify (JArr [JNull])).
Proof.
  split; [vm_compute; reflexivity |].
  intros (v & H1 & H2); vm_compute in H1, H2; congruence.
Qed.

(** C3 on three creations against an absent file, and on a deletion and
    a creation in both orders. *)
Lemma serial_creates_assign_ids_1_to_N_witness :
  let bodies := [titled "A" "B"; titled "C" "D"; titled "E" "F"] in
  let final := schedule (serial 2 3) (map post_books bodies) no_file in
  let d := stored [book 1 "A" "B" false; book 2 "C" "D" true] in
  (fst final = [Ret (Json 201 (book 1 "A" "B" false));
                Ret (Json 201 (book 2 "C" "D" false));
                Ret (Json 201 (book 3 "E" "F" false))]
   /\ load (snd final) = Val [book 1 "A" "B" false; book 2 "C" "D" false;
                              book 3 "E" "F" false])
  /\ load (snd (schedule (serial 2 2)
                  [delete_books_id "1"; post_books (titled "E" "F")] d))
     = Val [book 2 "C" "D" true; book 3 "E" "F" false]
  /\ load (snd (schedule (serial 2 2)
                  [post_books (titled "E" "F"); delete_books_id "1"] d))
     = Val [book 2 "C" "D" true; book 3 "E" "F" false].
Proof.
  intros bodies final d.
  destruct (serial_creates_assign_ids_1_to_N RefFacts.Ref_round_trips
              bodies no_file) as (H1 & H2 & _ & _ & _ & _ & H3).
  - repeat (apply Forall_cons; [creatable_body |]); apply Forall_nil.
  - split; reflexivity.
  - reflexivity.
  - vm_compute; reflexivity.
  - split; [split; [exact H1 | exact H2] |].
    destruct (H3 "1"%string (Integer 1) (titled "E" "F") d []
                (book 1 "A" "B" false) [book 2 "C" "D" true])
      as [(_ & D1) (_ & D2)].
    + creatable_body.
    + split; reflexivity.
    + vm_compute; reflexivity.
    + plain_books.
    + no_null.
    + reflexivity.
    + intros b [].
    + reflexivity.
    + vm_compute; reflexivity.
    + split; [exact D1 | exact D2].
Defined.

(** C3, as stated, fails: two creations against an empty collection
    whose reads both precede the writes are both answered 201 with id 1,
    and the collection is left with one record. *)
Lemma interleaved_creates_lose_an_update :
  let final := schedule [0; 1; 0; 1]%nat
                 [post_books (titled "A" "B"); post_books (titled "C" "D")]
                 no_file in
  fst final = [Ret (Json 201 (book 1 "A" "B" false));
               Ret (Json 201 (book 1 "C" "D" false))]
  /\ load (snd final) = Val [book 1 "C" "D" false].
Proof. vm_compute; split; reflexivity. Qed.


